(** * Customer-Satisfaction-360: validation stage and consolidation job

    A shallow embedding of [lambda_function.py] (per-file validation,
    partition routing, quality score, batch trigger) and of the parts of
    [glue_job.py] that deal with run tracking, sentiment enrichment and the
    final join, followed by the properties established about them.

    Modelling conventions.
    - Text is [string] over ASCII.  Python's [str.isdigit], [str.isspace] and
      [str.lower] are modelled on the ASCII range; characters outside it are
      treated as neither digits, nor whitespace, nor cased.
    - A raised exception is a value [Raise e] of the error monad [py]; a
      [try/except] is a match on it.
    - Python floats are IEEE binary64 values, Rocq's primitive [float].
    - Objects of the bucket are modelled by their parsed document ([body]):
      serialising a document and parsing it back is the identity at that
      level.  Listing a prefix returns every key under it. *)

From Stdlib Require Import ZArith QArith Qabs Floats Lia Ascii String.
From Stdlib Require Import DecimalString DecimalNat.
From stdpp Require Import base option list strings gmap fin_maps.

Local Open Scope string_scope.
Local Open Scope list_scope.
Local Set Warnings "-register-all".

(** ** Exceptions *)

Inductive exn :=
  | TypeError | KeyError | ValueError | AttributeError | OverflowError
  | IndexError | ParseError | JSONDecodeError.

Inductive py (A : Type) :=
  | Ret (a : A)
  | Raise (e : exn).
Arguments Ret {A} a.
Arguments Raise {A} e.

Definition py_bind {A B} (m : py A) (k : A -> py B) : py B :=
  match m with
  | Ret a => k a
  | Raise e => Raise e
  end.

Notation "x <-- m ;; k" := (py_bind m (fun x => k))
  (at level 100, m at next level, right associativity).

(** [a or b] on conditions that may raise: [b] is evaluated only when [a]
    is false, and an exception of [a] wins. *)
Definition py_or (a b : py bool) : py bool :=
  x <-- a ;; if x then Ret true else b.

Definition raised {A} (m : py A) : bool :=
  match m with Ret _ => false | Raise _ => true end.

(** ** Python string methods (ASCII) *)

Module PyStr.

Definition nl : ascii := Ascii.ascii_of_nat 10.

Definition is_digit (c : ascii) : bool :=
  let n := Ascii.nat_of_ascii c in (48 <=? n)%nat && (n <=? 57)%nat.

(** [str.isspace] on one character: TAB, LF, VT, FF, CR, the four
    separators 0x1c-0x1f and the blank. *)
Definition is_space (c : ascii) : bool :=
  let n := Ascii.nat_of_ascii c in
  ((9 <=? n)%nat && (n <=? 13)%nat) || ((28 <=? n)%nat && (n <=? 32)%nat).

Definition lower_char (c : ascii) : ascii :=
  let n := Ascii.nat_of_ascii c in
  if (65 <=? n)%nat && (n <=? 90)%nat then Ascii.ascii_of_nat (n + 32) else c.

Fixpoint all_chars (p : ascii -> bool) (s : string) : bool :=
  match s with
  | EmptyString => true
  | String c r => p c && all_chars p r
  end.

Definition is_empty (s : string) : bool :=
  match s with EmptyString => true | _ => false end.

(** [s.isdigit()]: at least one character, and all of them digits. *)
Definition isdigit (s : string) : bool :=
  negb (is_empty s) && all_chars is_digit s.

Fixpoint lstrip (s : string) : string :=
  match s with
  | EmptyString => EmptyString
  | String c r => if is_space c then lstrip r else s
  end.

Fixpoint rstrip (s : string) : string :=
  match s with
  | EmptyString => EmptyString
  | String c r =>
      let r' := rstrip r in
      if is_space c && is_empty r' then EmptyString else String c r'
  end.

Definition strip (s : string) : string := rstrip (lstrip s).

Fixpoint lower (s : string) : string :=
  match s with
  | EmptyString => EmptyString
  | String c r => String (lower_char c) (lower r)
  end.

Fixpoint startswith (p s : string) : bool :=
  match p, s with
  | EmptyString, _ => true
  | String a p', String b s' => if Ascii.eqb a b then startswith p' s' else false
  | String _ _, EmptyString => false
  end.

Fixpoint endswith (suf s : string) : bool :=
  String.eqb s suf ||
  match s with
  | EmptyString => false
  | String _ r => endswith suf r
  end.

(** [sub in s] *)
Fixpoint contains (sub s : string) : bool :=
  startswith sub s ||
  match s with
  | EmptyString => false
  | String _ r => contains sub r
  end.

(** [s.replace(old, new)] for a non-empty [old]: every non-overlapping
    occurrence, leftmost first.  [skip] counts the characters of an
    occurrence that is being dropped. *)
Fixpoint replace_from (old new : string) (skip : nat) (s : string) : string :=
  match s with
  | EmptyString => EmptyString
  | String c r =>
      match skip with
      | S k => replace_from old new k r
      | O =>
          if startswith old s
          then new +:+ replace_from old new (String.length old - 1) r
          else String c (replace_from old new 0 r)
      end
  end.

Definition replace (old new s : string) : string := replace_from old new 0 s.

(** [s.split("\n")]: never empty, [""] gives [[""]]. *)
Fixpoint split_nl (s : string) : list string :=
  match s with
  | EmptyString => [EmptyString]
  | String c r =>
      if Ascii.eqb c nl then EmptyString :: split_nl r
      else match split_nl r with
           | h :: t => String c h :: t
           | [] => [String c EmptyString]
           end
  end.

Definition digit_val (c : ascii) : Z := Z.of_nat (Ascii.nat_of_ascii c) - 48.

(** Decimal digits with single underscores between them, as [int()] and
    the numeric literals accept: [acc] is the value read so far, [prev]
    tells whether the previous character was a digit. *)
Fixpoint int_digits (acc : Z) (prev : bool) (s : string) : option Z :=
  match s with
  | EmptyString => if prev then Some acc else None
  | String c r =>
      if is_digit c then int_digits (10 * acc + digit_val c) true r
      else if Ascii.eqb c "_" then (if prev then int_digits acc false r else None)
      else None
  end.

(** [int(s)] on a string: surrounding whitespace, an optional sign, then
    the digits.  [None] is [ValueError]. *)
Definition int_of_str (s : string) : option Z :=
  match strip s with
  | String "+" r => int_digits 0 false r
  | String "-" r => Z.opp <$> int_digits 0 false r
  | t => int_digits 0 false t
  end.

End PyStr.

(** ** Numbers *)

(** [float(n)] for a Python int: the nearest binary64 value (ties to even);
    [OverflowError] when [n] is too large for a float. *)
Definition float_of_int (n : Z) : py float :=
  match SpecFloat.binary_normalize prec emax n 0 false with
  | S754_infinity _ => Raise OverflowError
  | sf => Ret (SF2Prim sf)
  end.

(** ** Values produced by [json.loads] *)

Inductive pyval :=
  | PNone
  | PBool (b : bool)
  | PInt (n : Z)
  | PFloat (f : float)
  | PStr (s : string)
  | PList (l : list pyval)
  | PDict (d : list (string * pyval)).

Fixpoint assoc {A} (k : string) (d : list (string * A)) : option A :=
  match d with
  | [] => None
  | (k', v) :: d' => if String.eqb k' k then Some v else assoc k d'
  end.

Definition is_str (k : string) (v : pyval) : bool :=
  match v with PStr s => String.eqb s k | _ => false end.

(** [k in rec] for a string [k]: key membership on a dict, substring test
    on a string, element membership on a list, [TypeError] otherwise. *)
Definition py_in (k : string) (rec : pyval) : py bool :=
  match rec with
  | PDict d => Ret (bool_decide (is_Some (assoc k d)))
  | PStr s => Ret (PyStr.contains k s)
  | PList l => Ret (existsb (is_str k) l)
  | _ => Raise TypeError
  end.

Definition py_not_in (k : string) (rec : pyval) : py bool :=
  b <-- py_in k rec ;; Ret (negb b).

(** [rec[k]] for a string [k]. *)
Definition py_getitem (rec : pyval) (k : string) : py pyval :=
  match rec with
  | PDict d => match assoc k d with Some v => Ret v | None => Raise KeyError end
  | _ => Raise TypeError
  end.

(** [str(v).isdigit()].  [str] of an int is its decimal numeral, with a
    leading minus sign when negative; [str] of a float always holds a
    point, an exponent, [inf] or [nan]; of a bool or [None] a word; of a list
    or dict a bracket. *)
Definition str_isdigit (v : pyval) : bool :=
  match v with
  | PStr s => PyStr.isdigit s
  | PInt n => (0 <=? n)%Z
  | _ => false
  end.

(** [for rec in records]: the elements of a list, the keys of a dict, the
    characters of a string; other values are not iterable. *)
Definition py_iter (v : pyval) : py (list pyval) :=
  match v with
  | PList l => Ret l
  | PDict d => Ret (map (fun kv => PStr (fst kv)) d)
  | PStr s => Ret (map (fun c => PStr (String c EmptyString)) (list_ascii_of_string s))
  | _ => Raise TypeError
  end.

(** ** Dates: [datetime.datetime.strptime(s, "%Y-%m-%d")] *)

Module Strptime.
Import PyStr.
Local Open Scope Z_scope.

Definition two (a b : ascii) : Z := 10 * digit_val a + digit_val b.

Definition in_range (lo hi : string) (c : ascii) : bool :=
  match lo, hi with
  | String l _, String h _ =>
      (Ascii.nat_of_ascii l <=? Ascii.nat_of_ascii c)%nat &&
      (Ascii.nat_of_ascii c <=? Ascii.nat_of_ascii h)%nat
  | _, _ => false
  end.

(** [%Y] is [\d\d\d\d]. *)
Definition directive_Y (s : string) : list (Z * string) :=
  match s with
  | String a (String b (String c (String d r))) =>
      if is_digit a && is_digit b && is_digit c && is_digit d
      then [(100 * two a b + two c d, r)] else []
  | _ => []
  end.

(** [%m] is [1[0-2]|0[1-9]|[1-9]]: the matches in the order the regex
    engine tries them. *)
Definition directive_m (s : string) : list (Z * string) :=
  (match s with
   | String a (String b r) =>
       (if Ascii.eqb a "1" && in_range "0" "2" b then [(two a b, r)] else []) ++
       (if Ascii.eqb a "0" && in_range "1" "9" b then [(two a b, r)] else [])
   | _ => []
   end) ++
  (match s with
   | String a r => if in_range "1" "9" a then [(digit_val a, r)] else []
   | _ => []
   end).

(** [%d] is [3[0-1]|[1-2]\d|0[1-9]|[1-9]| [1-9]]. *)
Definition directive_d (s : string) : list (Z * string) :=
  (match s with
   | String a (String b r) =>
       (if Ascii.eqb a "3" && in_range "0" "1" b then [(two a b, r)] else []) ++
       (if in_range "1" "2" a && is_digit b then [(two a b, r)] else []) ++
       (if Ascii.eqb a "0" && in_range "1" "9" b then [(two a b, r)] else [])
   | _ => []
   end) ++
  (match s with
   | String a r => if in_range "1" "9" a then [(digit_val a, r)] else []
   | _ => []
   end) ++
  (match s with
   | String a (String b r) =>
       if Ascii.eqb a " " && in_range "1" "9" b then [(digit_val b, r)] else []
   | _ => []
   end).

Definition dash (s : string) : option string :=
  match s with
  | String "-" r => Some r
  | _ => None
  end.

(** The first match of the whole pattern, anchored at the start of [s]:
    year, month, day and the text left over. *)
Definition regex_match (s : string) : option (Z * Z * Z * string) :=
  '(y, r1) ← head (directive_Y s);
  r2 ← dash r1;
  head (omap (fun mr : Z * string =>
          let '(m, r3) := mr in
          r4 ← dash r3;
          '(d, r5) ← head (directive_d r4);
          Some (y, m, d, r5))
        (directive_m r2)).

Definition is_leap (y : Z) : bool :=
  (y mod 4 =? 0) && negb (y mod 100 =? 0) || (y mod 400 =? 0).

Definition days_in_month (y m : Z) : Z :=
  if m =? 2 then (if is_leap y then 29 else 28)
  else if (m =? 4) || (m =? 6) || (m =? 9) || (m =? 11) then 30
  else 31.

(** The call succeeds when the pattern matches, no text is left over, and
    the three numbers make a date ([datetime.date(y, m, d)]). *)
Definition parses (s : string) : bool :=
  match regex_match s with
  | Some (y, m, d, rest) =>
      is_empty rest && (1 <=? y) && (d <=? days_in_month y m)
  | None => false
  end.

End Strptime.

(** [is_valid_date]: the bare [except] turns every failure, a non-string
    argument included, into [False]. *)
Definition is_valid_date (date_str : pyval) : bool :=
  match date_str with
  | PStr s => Strptime.parses s
  | _ => false
  end.

(** ** Documents *)

(** An element of [xml.etree.ElementTree]: tag, text and children. *)
Inductive element :=
  | Element (tag : string) (text : option string) (children : list element).

Definition tag_of (e : element) : string :=
  match e with Element t _ _ => t end.
Definition text_of (e : element) : option string :=
  match e with Element _ t _ => t end.
Definition children_of (e : element) : list element :=
  match e with Element _ _ cs => cs end.

(** A row yielded by [csv.DictReader]: field name to value, [None] for a
    field the line is too short to fill. *)
Definition csv_row : Type := list (string * option string).

(** The body of an object of the bucket, by the format it parses as. *)
Inductive body :=
  | XmlDoc (root : element)
  | JsonDoc (v : pyval)
  | CsvDoc (rows : list csv_row)
  | Blob (text : string).

(** [ET.fromstring] *)
Definition ET_fromstring (content : body) : py element :=
  match content with
  | XmlDoc root => Ret root
  | _ => Raise ParseError
  end.

(** [json.loads] *)
Definition json_loads (content : body) : py pyval :=
  match content with
  | JsonDoc v => Ret v
  | _ => Raise JSONDecodeError
  end.

(** [csv.DictReader(io.StringIO(content))]: reading never fails; the rows of
    a body that is not a CSV document are left out, they only feed lists
    that [process_csv_records] drops. *)
Definition DictReader (content : body) : list csv_row :=
  match content with
  | CsvDoc rows => rows
  | _ => []
  end.

(** ** XML customers *)

(** [e.find(tag)]: the first child with that tag. *)
Definition find (tag : string) (e : element) : option element :=
  List.find (fun c => String.eqb (tag_of c) tag) (children_of e).

(** The element and its descendants, in document order. *)
Fixpoint subtree (e : element) : list element :=
  match e with
  | Element _ _ cs =>
      e :: (fix forest (l : list element) : list element :=
              match l with
              | [] => []
              | c :: l' => subtree c ++ forest l'
              end) cs
  end.

(** [root.findall(".//" + tag)]: the descendants with that tag. *)
Definition findall_descendants (tag : string) (root : element) : list element :=
  filter (fun e => tag_of e = tag) (tail (subtree root)).

(** [not e.text] *)
Definition no_text (e : element) : bool :=
  match text_of e with
  | None => true
  | Some s => PyStr.is_empty s
  end.

Definition stripped_text (e : element) : string :=
  PyStr.strip (default EmptyString (text_of e)).

(** One turn of the loop of [process_xml_records]: [true] when the element
    goes to [invalid_customers]. *)
Definition customer_invalid (cust : element) : bool :=
  match find "CustomerID" cust, find "Name" cust, find "City" cust with
  | Some cid, Some name, Some city =>
      if no_text cid || negb (PyStr.isdigit (stripped_text cid)) then true
      else if no_text name || String.eqb (stripped_text name) "" then true
      else if no_text city || String.eqb (stripped_text city) "" then true
      else false
  | _, _, _ => true
  end.

(** The loops append to two lists. *)
Definition route {A} (invalid_p : A -> bool) (acc : list A * list A) (x : A)
  : list A * list A :=
  let '(valid, invalid) := acc in
  if invalid_p x then (valid, invalid ++ [x]) else (valid ++ [x], invalid).

Definition process_xml_records (content : body) : py (list element * list element) :=
  root <-- ET_fromstring content ;;
  Ret (fold_left (route customer_invalid) (findall_descendants "Customer" root) ([], [])).

(** [build_xml] *)
Definition build_xml (customers : list element) : body :=
  XmlDoc (Element "Customers" None customers).

(** ** CSV feedback *)

(** [row[k]] *)
Definition row_getitem (row : csv_row) (k : string) : py (option string) :=
  match assoc k row with
  | Some v => Ret v
  | None => Raise KeyError
  end.

(** A method call on a field value: [None] has none of the [str] methods. *)
Definition as_str (v : option string) : py string :=
  match v with
  | Some s => Ret s
  | None => Raise AttributeError
  end.

(** [int(v)] on a field value. *)
Definition py_int (v : option string) : py Z :=
  match v with
  | Some s => match PyStr.int_of_str s with Some n => Ret n | None => Raise ValueError end
  | None => Raise TypeError
  end.

(** The condition of the [if] in the loop of [process_csv_records]. *)
Definition feedback_condition (row : csv_row) : py bool :=
  py_or (cid <-- row_getitem row "CustomerID" ;; s <-- as_str cid ;;
         Ret (negb (PyStr.isdigit s)))
 (py_or (r <-- row_getitem row "Rating" ;; n <-- py_int r ;; Ret (n <? 1)%Z)
 (py_or (r <-- row_getitem row "Rating" ;; n <-- py_int r ;; Ret (5 <? n)%Z)
        (fb <-- row_getitem row "Feedback" ;; s <-- as_str fb ;;
         Ret (String.eqb (PyStr.strip s) "")))).

(** The [try/except] around it: a raised exception sends the row to
    [invalid]. *)
Definition feedback_invalid (row : csv_row) : bool :=
  match feedback_condition row with
  | Ret b => b
  | Raise _ => true
  end.

(** The two lists the loop of [process_csv_records] builds. *)
Definition csv_loop (content : body) : list csv_row * list csv_row :=
  fold_left (route feedback_invalid) (DictReader content) ([], []).

(** [process_csv_records] ends after its loop, without a [return]: the
    call evaluates to [None] whatever the lists hold. *)
Definition process_csv_records (content : body)
  : py (option (list csv_row * list csv_row)) :=
  let '(valid, invalid) := csv_loop content in
  Ret None.

(** [valid, invalid = r]: unpacking [None] raises [TypeError]. *)
Definition unpack {A} (r : option (list A * list A)) : py (list A * list A) :=
  match r with
  | Some p => Ret p
  | None => Raise TypeError
  end.

(** ** JSON purchases *)

Section Purchases.

(** [float(s)] on a string, the interpreter's parser of float literals
    ([None] is [ValueError]). *)
Variable float_of_str : string -> option float.

(** [float(v)] *)
Definition py_float (v : pyval) : py float :=
  match v with
  | PFloat f => Ret f
  | PInt n => float_of_int n
  | PBool b => Ret (if b then 1%float else 0%float)
  | PStr s => match float_of_str s with Some f => Ret f | None => Raise ValueError end
  | _ => Raise TypeError
  end.

(** [v.strip()] *)
Definition py_strip (v : pyval) : py string :=
  match v with
  | PStr s => Ret (PyStr.strip s)
  | _ => Raise AttributeError
  end.

(** The condition of the [if] in the loop of [process_json_records]. *)
Definition purchase_condition (rec : pyval) : py bool :=
  py_or (py_not_in "CustomerID" rec)
 (py_or (cid <-- py_getitem rec "CustomerID" ;; Ret (negb (str_isdigit cid)))
 (py_or (py_not_in "Amount" rec)
 (py_or (a <-- py_getitem rec "Amount" ;; f <-- py_float a ;; Ret (PrimFloat.leb f 0))
 (py_or (py_not_in "Product" rec)
 (py_or (p <-- py_getitem rec "Product" ;; s <-- py_strip p ;; Ret (String.eqb s ""))
 (py_or (py_not_in "Date" rec)
        (d <-- py_getitem rec "Date" ;; Ret (negb (is_valid_date d))))))))).

Definition purchase_invalid (rec : pyval) : bool :=
  match purchase_condition rec with
  | Ret b => b
  | Raise _ => true
  end.

Definition process_json_records (content : body) : py (list pyval * list pyval) :=
  records <-- json_loads content ;;
  recs <-- py_iter records ;;
  Ret (fold_left (route purchase_invalid) recs ([], [])).

End Purchases.

(** ** The validation stage: [lambda_handler] *)

(** The value of [dq_score]: the [else] branch is the int [0], the other a
    float. *)
Inductive score :=
  | ScoreInt (n : Z)
  | ScoreFloat (f : float).

(** The arguments of [glue.start_job_run] that vary from run to run. *)
Record job_arguments := JobArguments {
  DQ_SCORE : score;
  ERROR_COUNT : nat
}.

(** What an invocation can touch: the objects of the bucket named in the
    event, the job runs started, the failure metrics published. *)
Record world := World {
  s3 : gmap string body;
  glue_runs : list job_arguments;
  cw_failures : nat
}.

Definition set_s3 (f : gmap string body -> gmap string body) (w : world) : world :=
  World (f (s3 w)) (glue_runs w) (cw_failures w).

(** A record of the event: the key of the uploaded object. *)
Record s3_record := S3Record { key : string }.

(** Statements that read and write the world and may raise. *)
Definition act (A : Type) : Type := world -> world * py A.

Definition act_ret {A} (a : A) : act A := fun w => (w, Ret a).
Definition act_raise {A} (e : exn) : act A := fun w => (w, Raise e).
Definition act_bind {A B} (m : act A) (k : A -> act B) : act B :=
  fun w => match m w with
           | (w', Ret a) => k a w'
           | (w', Raise e) => (w', Raise e)
           end.
Definition lift {A} (m : py A) : act A := fun w => (w, m).

Notation "x <~~ m ;; k" := (act_bind m (fun x => k))
  (at level 100, m at next level, right associativity).
Notation "m ;;; k" := (act_bind m (fun _ => k))
  (at level 100, right associativity).

(** [s3.put_object]: creates the object or replaces its body. *)
Definition put_object (k : string) (b : body) : act unit :=
  fun w => (set_s3 (insert k b) w, Ret tt).

(** [s3.get_object(...)["Body"].read().decode("utf-8")] *)
Definition get_object (store : gmap string body) (k : string) : py body :=
  match store !! k with
  | Some b => Ret b
  | None => Raise KeyError
  end.

(** [s3.list_objects_v2(Prefix=p)]: the keys under the prefix. *)
Definition list_objects_v2 (store : gmap string body) (p : string) : list string :=
  filter (fun k => PyStr.startswith p k = true) (map fst (map_to_list store)).

(** [report_validation_failure]: [put_cw_metric] swallows its own
    exceptions. *)
Definition report_validation_failure : act unit :=
  fun w => (World (s3 w) (glue_runs w) (S (cw_failures w)), Ret tt).

Definition start_job_run (args : job_arguments) : act unit :=
  fun w => (World (s3 w) (glue_runs w ++ [args]) (cw_failures w), Ret tt).

Definition when (c : bool) (m : act unit) : act unit :=
  if c then m else act_ret tt.

Definition nonempty {A} (l : list A) : bool :=
  match l with [] => false | _ => true end.

Definition validated_key (k : string) : string := PyStr.replace "raw/" "validated/" k.
Definition error_key (k : string) : string := PyStr.replace "raw/" "error/" k.

(** [float(n)] for a count; exact below 2^53. *)
Definition float_of_count (n : nat) : float :=
  SF2Prim (SpecFloat.binary_normalize prec emax (Z.of_nat n) 0 false).

(** [(total_valid / (total_valid + total_invalid)) * 100 if ... > 0 else 0];
    the quotient of two ints below 2^53 is the float quotient of their
    conversions. *)
Definition dq_score (total_valid total_invalid : nat) : score :=
  if (0 <? total_valid + total_invalid)%nat
  then ScoreFloat
         (float_of_count total_valid / float_of_count (total_valid + total_invalid) * 100)%float
  else ScoreInt 0.

Section Handler.

Variable float_of_str : string -> option float.

(** Both lists of the records of one object, by the suffix of its key;
    [None] when the suffix is none of the three. *)
Definition revalidate (file_key : string) (content2 : body)
  : py (option (nat * nat)) :=
  if PyStr.endswith ".xml" file_key then
    p <-- process_xml_records content2 ;; let '(valid2, invalid2) := p in
    Ret (Some (length valid2, length invalid2))
  else if PyStr.endswith ".json" file_key then
    p <-- process_json_records float_of_str content2 ;; let '(valid2, invalid2) := p in
    Ret (Some (length valid2, length invalid2))
  else if PyStr.endswith ".csv" file_key then
    r <-- process_csv_records content2 ;;
    p <-- unpack r ;; let '(valid2, invalid2) := p in
    Ret (Some (length valid2, length invalid2))
  else Ret None.

(** The two loops over the listed objects: [side] picks the list that is
    counted, the other one is bound to [_]. *)
Fixpoint rescan (side : nat * nat -> nat) (store : gmap string body)
    (keys : list string) (total : nat) : py nat :=
  match keys with
  | [] => Ret total
  | file_key :: rest =>
      content2 <-- get_object store file_key ;;
      r <-- revalidate file_key content2 ;;
      match r with
      | Some counts => rescan side store rest (total + side counts)
      | None => rescan side store rest total
      end
  end.

(** The branch for the format of the uploaded file: the pair of counts added
    to [total_valid] and [total_invalid]. *)
Definition route_file (k : string) (content : body) : act (nat * nat) :=
  if PyStr.endswith ".xml" k then
    p <~~ lift (process_xml_records content) ;; let '(valid, invalid) := p in
    when (nonempty valid) (put_object (validated_key k) (build_xml valid)) ;;;
    when (nonempty invalid) (put_object (error_key k) (build_xml invalid)) ;;;
    act_ret (length valid, length invalid)
  else if PyStr.endswith ".json" k then
    p <~~ lift (process_json_records float_of_str content) ;; let '(valid, invalid) := p in
    when (nonempty valid) (put_object (validated_key k) (JsonDoc (PList valid))) ;;;
    when (nonempty invalid) (put_object (error_key k) (JsonDoc (PList invalid))) ;;;
    act_ret (length valid, length invalid)
  else if PyStr.endswith ".csv" k then
    r <~~ lift (process_csv_records content) ;;
    p <~~ lift (unpack r) ;; let '(valid, invalid) := p in
    when (nonempty valid) (put_object (validated_key k) (CsvDoc valid)) ;;;
    when (nonempty invalid) (put_object (error_key k) (CsvDoc invalid)) ;;;
    act_ret (length valid, length invalid)
  else act_ret (0, 0)%nat.

(** The totals after the two rescans. *)
Definition totals (own : nat * nat) : act (nat * nat) :=
  fun w =>
    (w,
     total_valid <-- rescan fst (s3 w) (list_objects_v2 (s3 w) "validated/") (fst own) ;;
     total_invalid <-- rescan snd (s3 w) (list_objects_v2 (s3 w) "error/") (snd own) ;;
     Ret (total_valid, total_invalid)).

Definition lambda_handler (event : list s3_record) : act string :=
  match event with
  | [] => report_validation_failure ;;; act_ret "No Records"
  | record :: _ =>
      fun w =>
        match get_object (s3 w) (key record) with
        | Raise _ => (report_validation_failure ;;; act_ret "Failed to read file") w
        | Ret content =>
            (own <~~ route_file (key record) content ;;
             p <~~ totals own ;; let '(total_valid, total_invalid) := p in
             when (0 <? total_invalid)%nat report_validation_failure ;;;
             when (0 <? total_valid)%nat
               (start_job_run (JobArguments (dq_score total_valid total_invalid) total_invalid)) ;;;
             act_ret "Record-level processing complete") w
        end
  end.

End Handler.

(** ** The event of an invocation *)

(** [v[0]]: the first element of a list, the first character of a string,
    [IndexError] when there is none; the keys of a decoded event are strings,
    so a dict has no key [0]. *)
Definition py_first (v : pyval) : py pyval :=
  match v with
  | PList (x :: _) => Ret x
  | PList [] => Raise IndexError
  | PStr (String c _) => Ret (PStr (String c EmptyString))
  | PStr EmptyString => Raise IndexError
  | PDict _ => Raise KeyError
  | _ => Raise TypeError
  end.

(** [event["Records"][0]] *)
Definition first_record (event : pyval) : py pyval :=
  records <-- py_getitem event "Records" ;; py_first records.

(** [record["s3"][a][b]] *)
Definition s3_field (record : pyval) (a b : string) : py pyval :=
  x <-- py_getitem record "s3" ;; y <-- py_getitem x a ;; py_getitem y b.

Section Event.

Variable float_of_str : string -> option float.

(** [lambda_handler] from the event as the service delivers it.  The first
    record is taken inside a [try]; the bucket name and the key are taken
    outside of one; a name or a key that is not a string is refused by
    [get_object], inside the second [try].  The world holds the objects of
    the bucket the record names. *)
Definition lambda_handler_event (event : pyval) : act string :=
  match first_record event with
  | Raise _ => report_validation_failure ;;; act_ret "No Records"
  | Ret record =>
      bucket <~~ lift (s3_field record "bucket" "name") ;;
      k <~~ lift (s3_field record "object" "key") ;;
      match bucket, k with
      | PStr _, PStr k => lambda_handler float_of_str [S3Record k]
      | _, _ => report_validation_failure ;;; act_ret "Failed to read file"
      end
  end.

End Event.

(** [str(total_invalid)], the text of the argument ERROR_COUNT: the decimal
    numeral of the count. *)
Definition str_of_count (n : nat) : string := NilZero.string_of_uint (Nat.to_uint n).

(** ** The consolidation job: [glue_job.py] *)

(** [error_count = int(args['ERROR_COUNT'])], at the head of the script. *)
Definition error_count (arg : string) : py Z :=
  match PyStr.int_of_str arg with
  | Some n => Ret n
  | None => Raise ValueError
  end.

(** A row of [customer360_df]: the join key, the feedback text, and the other
    columns, which the enrichment and the final join carry along. *)
Record row := Row {
  CustomerID : string;
  Feedback : string;
  other_columns : list (string * string)
}.

Definition newline : string := String PyStr.nl EmptyString.

Definition prompt_header : string :=
  "Classify sentiment (Positive / Negative / Neutral) for each line:" +:+ newline +:+ newline.

(** [prompt += f"- {fb}\n"] for each feedback. *)
Definition prompt_of (feedbacks : list string) : string :=
  fold_left (fun prompt fb => prompt +:+ ("- " +:+ fb +:+ newline)) feedbacks prompt_header.

(** The label for one line of the response. *)
Definition label_of (sentiment_line : string) : string :=
  let s := PyStr.lower sentiment_line in
  if PyStr.contains "positive" s then "Positive"
  else if PyStr.contains "negative" s then "Negative"
  else if PyStr.contains "neutral" s then "Neutral"
  else "Unknown".

Section GlueJob.

(** The classification service: from the prompt to the [text] of the
    decoded response, or an exception. *)
Variable invoke_model : string -> py string.

(** [batch_sentiment]: the requests sent and the pairs yielded. *)
Definition batch_sentiment (partition : list row)
  : py (list string * list (string * string)) :=
  let batch := partition in
  if negb (nonempty batch) then Ret ([], [])
  else
    let feedbacks := map Feedback batch in
    let prompt := prompt_of feedbacks in
    text <-- invoke_model prompt ;;
    let text_output := PyStr.split_nl (PyStr.strip text) in
    Ret ([prompt],
         map (fun rs : row * string => (CustomerID (fst rs), label_of (snd rs)))
             (zip batch text_output)).

(** [rdd.mapPartitions(batch_sentiment)]: partition after partition. *)
Fixpoint mapPartitions (partitions : list (list row))
  : py (list string * list (string * string)) :=
  match partitions with
  | [] => Ret ([], [])
  | p :: rest =>
      r <-- batch_sentiment p ;;
      rs <-- mapPartitions rest ;;
      Ret (fst r ++ fst rs, snd r ++ snd rs)
  end.

(** [customer360_df.join(sentiment_df, "CustomerID", "left")]: a row is paired
    with every sentiment of its [CustomerID], or with null when there is
    none. *)
Definition left_join (rows : list row) (sentiment_df : list (string * string))
  : list (row * option string) :=
  flat_map
    (fun r =>
       match filter (fun p => fst p = CustomerID r) sentiment_df with
       | [] => [(r, None)]
       | matches => map (fun p => (r, Some (snd p))) matches
       end)
    rows.

(** The item of the tracking table for one run. *)
Record run_record := RunRecord {
  status : string;
  record_count : option nat
}.

(** What the job can touch: the tracking table, the table
    [customer360_golden] ([None] until it is written), the requests sent to
    the classification service, and whether [job.commit()] was reached. *)
Record job_world := JobWorld {
  tracker : gmap string run_record;
  golden : option (list (row * option string));
  requests : list string;
  committed : bool
}.

Definition job (A : Type) : Type := job_world -> job_world * py A.

Definition job_bind {A B} (m : job A) (k : A -> job B) : job B :=
  fun w => match m w with
           | (w', Ret a) => k a w'
           | (w', Raise e) => (w', Raise e)
           end.

Notation "x <== m ;; k" := (job_bind m (fun x => k))
  (at level 100, m at next level, right associativity).

(** The calls to the tracking table, the database and the job service. *)
Inductive call := PutItem | JdbcWrite | UpdateItem | Commit.

(** The calls that fail in this run. *)
Variable outage : call -> option exn.

Definition calling (c : call) (effect : job_world -> job_world) : job unit :=
  fun w => match outage c with
           | Some e => (w, Raise e)
           | None => (effect w, Ret tt)
           end.

(** The run identifier, [job_name] and the time of the start. *)
Variable job_id : string.

(** Lines 63 to 109, from the loads to [dropna]: [valid_records] and the
    partitions of [customer360_df], or the exception of the load, join or
    aggregate that fails. *)
Variable consolidate : py (nat * list (list row)).

Definition put_item : job unit :=
  calling PutItem (fun w =>
    JobWorld (<[job_id := RunRecord "RUNNING" None]> (tracker w))
             (golden w) (requests w) (committed w)).

Definition enrich (partitions : list (list row)) : job (list (string * string)) :=
  fun w => match mapPartitions partitions with
           | Ret (sent, sentiment_df) =>
               (JobWorld (tracker w) (golden w) (requests w ++ sent) (committed w),
                Ret sentiment_df)
           | Raise e => (w, Raise e)
           end.

(** [write ... .mode("overwrite").save()] *)
Definition write_golden (df : list (row * option string)) : job unit :=
  calling JdbcWrite (fun w =>
    JobWorld (tracker w) (Some df) (requests w) (committed w)).

Definition update_item (valid_records : nat) : job unit :=
  calling UpdateItem (fun w =>
    JobWorld (<[job_id := RunRecord "SUCCESS" (Some valid_records)]> (tracker w))
             (golden w) (requests w) (committed w)).

Definition commit : job unit :=
  calling Commit (fun w =>
    JobWorld (tracker w) (golden w) (requests w) true).

(** The script, top to bottom; no statement of it is inside a [try]. *)
Definition glue_job : job unit :=
  _ <== put_item ;;
  c <== (fun w => (w, consolidate)) ;;
  let '(valid_records, partitions) := c in
  sentiment_df <== enrich partitions ;;
  _ <== write_golden (left_join (concat partitions) sentiment_df) ;;
  _ <== update_item valid_records ;;
  commit.

End GlueJob.

(** * Specification

    The vocabulary of the statements: the rules of the data model in its own
    words, the quantities the statements speak of, and the inputs of the
    scenarios. *)

(** ** Record rules *)

(** A blank text: nothing but whitespace. *)
Definition only_whitespace (s : string) : Prop :=
  Forall (fun c => PyStr.is_space c = true) (list_ascii_of_string s).












(** The ten digits. *)
Definition digits : list ascii := ["0"; "1"; "2"; "3"; "4"; "5"; "6"; "7"; "8"; "9"]%char.



(** ** The quality score *)

Section QualityScore.
Local Open Scope Q_scope.

(** The number a float stands for. *)
Definition float_value (f : float) : option Q :=
  match Prim2SF f with
  | S754_zero _ => Some 0
  | S754_finite s m e =>
      Some ((if s then -1 else 1) * inject_Z (Zpos m) * Qpower 2 e)
  | _ => None
  end.

(** The number a score stands for. *)
Definition score_value (s : score) : option Q :=
  match s with
  | ScoreInt n => Some (inject_Z n)
  | ScoreFloat f => float_value f
  end.

(** The score of the data model: 100 × accepted / (accepted + rejected). *)
Definition exact_score (accepted rejected : nat) : Q :=
  100 * inject_Z (Z.of_nat accepted) / inject_Z (Z.of_nat (accepted + rejected)).

(** One unit in the last place of a float between 64 and 128. *)
Definition ulp_100 : Q := Qpower 2 (-46).

(** The score of [dq_score] is within that distance of the score of the
    data model. *)
Definition score_close (accepted rejected : nat) : bool :=
  match score_value (dq_score accepted rejected) with
  | Some q => Qle_bool (Qabs (q - exact_score accepted rejected)) ulp_100
  | None => false
  end.

(** ... for every pair of counts with at least one record and at most
    [total]. *)
Definition scores_close_upto (total : nat) : bool :=
  forallb (fun n => forallb (fun a => score_close a (n - a)) (seq 0 (S n)))
          (seq 1 total).

End QualityScore.

(** ** Sentiment *)

(** The entry of one row in the request. *)
Definition prompt_entry (fb : string) : string := "- " +:+ fb +:+ newline.

(** A line mentions a keyword when its lower-case form contains it. *)
Definition mentions (keyword line : string) : Prop :=
  PyStr.contains keyword (PyStr.lower line) = true.

(** The labelling as the enrichment adapter is described: each keyword
    gives its label, no keyword gives Unknown. *)
Definition label_per_keyword (line label : string) : Prop :=
  (mentions "positive" line -> label = "Positive") /\
  (mentions "negative" line -> label = "Negative") /\
  (mentions "neutral" line -> label = "Neutral") /\
  (~ mentions "positive" line -> ~ mentions "negative" line ->
   ~ mentions "neutral" line -> label = "Unknown").

(** The labelling of [batch_sentiment]: the first keyword found, in the
    order positive, negative, neutral. *)
Definition label_by_priority (line label : string) : Prop :=
  (mentions "positive" line -> label = "Positive") /\
  (~ mentions "positive" line -> mentions "negative" line -> label = "Negative") /\
  (~ mentions "positive" line -> ~ mentions "negative" line ->
   mentions "neutral" line -> label = "Neutral") /\
  (~ mentions "positive" line -> ~ mentions "negative" line ->
   ~ mentions "neutral" line -> label = "Unknown").

(** The four values of the Sentiment field. *)
Definition labels : list string := ["Positive"; "Negative"; "Neutral"; "Unknown"].

(** Every non-empty partition gets a response with at least as many lines as
    it has rows. *)
Definition answered_in_full (invoke_model : string -> py string)
    (partitions : list (list row)) : Prop :=
  forall p, p ∈ partitions -> p <> [] ->
    exists text,
      invoke_model (prompt_of (map Feedback p)) = Ret text /\
      (length p <= length (PyStr.split_nl (PyStr.strip text)))%nat.

(** ** Runs of the job *)

(** The status recorded for this run. *)
Definition run_status (job_id : string) (w : job_world) : option string :=
  status <$> tracker w !! job_id.

(** The exception comes from the loads, joins and aggregates, or from the
    enrichment: from a statement above the write of the final dataset. *)
Definition raises_before_write (invoke_model : string -> py string)
    (consolidate : py (nat * list (list row))) : Prop :=
  raised consolidate = true \/
  exists valid_records partitions,
    consolidate = Ret (valid_records, partitions) /\
    raised (mapPartitions invoke_model partitions) = true.

(** ** Partitions and totals *)

(** The objects [route_file] writes, in the order of the writes. *)
Definition puts {A} (serialize : list A -> body) (k : string) (valid invalid : list A)
  : list (string * body) :=
  (if nonempty valid then [(validated_key k, serialize valid)] else []) ++
  (if nonempty invalid then [(error_key k, serialize invalid)] else []).

(** The bucket after these writes. *)
Definition apply_puts (ps : list (string * body)) (store : gmap string body)
  : gmap string body :=
  fold_left (fun m kb => <[kb.1 := kb.2]> m) ps store.

(** The partitions of the uploaded file and their sizes. *)
Definition file_partitions (float_of_str : string -> option float)
    (k : string) (content : body)
  : py (list (string * body) * (nat * nat)) :=
  if PyStr.endswith ".xml" k then
    p <-- process_xml_records content ;;
    Ret (puts build_xml k p.1 p.2, (length p.1, length p.2))
  else if PyStr.endswith ".json" k then
    p <-- process_json_records float_of_str content ;;
    Ret (puts (fun l => JsonDoc (PList l)) k p.1 p.2, (length p.1, length p.2))
  else if PyStr.endswith ".csv" k then Raise TypeError
  else Ret ([], (0, 0)%nat).

(** What one listed object adds to a total. *)
Definition contribution (float_of_str : string -> option float)
    (side : nat * nat -> nat) (store : gmap string body)
    (k : string) : nat :=
  match store !! k with
  | Some b =>
      match revalidate float_of_str k b with
      | Ret (Some counts) => side counts
      | _ => 0%nat
      end
  | None => 0%nat
  end.

(** The totals, the trigger and the metric of an invocation that reads its
    file. *)
Definition after_rescans (float_of_str : string -> option float)
    (w : world) (store : gmap string body) (nv ni : nat)
  : world * py string :=
  match rescan float_of_str fst store (list_objects_v2 store "validated/") nv with
  | Raise e => (World store (glue_runs w) (cw_failures w), Raise e)
  | Ret total_valid =>
      match rescan float_of_str snd store (list_objects_v2 store "error/") ni with
      | Raise e => (World store (glue_runs w) (cw_failures w), Raise e)
      | Ret total_invalid =>
          (World store
             (glue_runs w ++
              if (0 <? total_valid)%nat
              then [JobArguments (dq_score total_valid total_invalid) total_invalid]
              else [])
             (if (0 <? total_invalid)%nat then S (cw_failures w) else cw_failures w),
           Ret "Record-level processing complete")
      end
  end.

(** What the key [k] holds after one more write. *)
Definition overwrite (k : string) (acc : option body) (kb : string * body)
  : option body :=
  if decide (kb.1 = k) then Some kb.2 else acc.


(** A suffix such as [.json], with no slash in it. *)
Definition no_slash (s : string) : bool :=
  PyStr.all_chars (fun c => negb (Ascii.eqb c "/")) s.

(** ** Dates as texts *)







(** ** The range of the score *)

(** The score of the pair of counts is a float from 0 to 100, 100 only
    without a rejected record and 0 only without an accepted one. *)
Definition score_in_range (accepted rejected : nat) : bool :=
  match dq_score accepted rejected with
  | ScoreFloat f =>
      PrimFloat.leb 0 f && PrimFloat.leb f 100 &&
      Bool.eqb (PrimFloat.eqb f 100) (rejected =? 0)%nat &&
      Bool.eqb (PrimFloat.eqb f 0) (accepted =? 0)%nat
  | ScoreInt _ => false
  end.

(** ... for every pair of counts with at least one record and at most
    [total]. *)
Definition scores_in_range_upto (total : nat) : bool :=
  forallb (fun n => forallb (fun a => score_in_range a (n - a)) (seq 0 (S n)))
          (seq 1 total).

(** ** Scenarios *)

(** A feedback file with a row of Rating 5 and a row of Rating 6. *)
Definition feedback_row (cid rating fb : string) : csv_row :=
  [("CustomerID", Some cid); ("Rating", Some rating); ("Feedback", Some fb)].

Definition feedback_file : body :=
  CsvDoc [feedback_row "1" "5" "good"; feedback_row "2" "6" "bad"].

(** Purchase records, and a bucket where an earlier file has left an
    accepted purchase under validated/. *)
Definition purchase (cid : string) (amount : pyval) (product date : string) : pyval :=
  PDict [("CustomerID", PStr cid); ("Amount", amount);
         ("Product", PStr product); ("Date", PStr date)].

Definition old_purchases : body :=
  JsonDoc (PList [purchase "7" (PInt 5) "X" "2024-01-01"]).

Definition new_purchases : body :=
  JsonDoc (PList [purchase "8" (PInt (-5)) "Y" "2024-01-02"]).

Definition corpus_with_history : world :=
  World (<["validated/customer_purchases/old.json" := old_purchases]>
           {["raw/customer_purchases/new.json" := new_purchases]}) [] 0.

Definition mixed_purchases : body :=
  JsonDoc (PList [purchase "7" (PInt 5) "X" "2024-01-01";
                  purchase "8" (PInt (-5)) "Y" "2024-01-02"]).


Definition corpus_with_mixed_file : world :=
  World (<["validated/customer_purchases/old.json" := old_purchases]>
           {["raw/customer_purchases/mixed.json" := mixed_purchases]}) [] 0.

(** Two consolidated rows with their feedback texts. *)
Definition two_rows : list row := [Row "1" "great" []; Row "2" "terrible" []].

(** A customer element with its three fields. *)
Definition customer (cid name city : string) : element :=
  Element "Customer" None
    [Element "CustomerID" (Some cid) []; Element "Name" (Some name) [];
     Element "City" (Some city) []].

(** An event with one notification per key. *)
Definition s3_event (bucket : string) (keys : list string) : pyval :=
  PDict [("Records",
          PList (map (fun k =>
                   PDict [("eventName", PStr "ObjectCreated:Put");
                          ("s3", PDict [("bucket", PDict [("name", PStr bucket)]);
                                        ("object", PDict [("key", PStr k)])])])
                 keys))].

(** A bucket where an earlier file has left a rejected purchase under
    error/, and a new file without a rejected record. *)
Definition corpus_with_rejections : world :=
  World (<["error/customer_purchases/old.json" := new_purchases]>
           {["raw/customer_purchases/clean.json" := old_purchases]}) [] 0.


(** * Properties *)

(** ** Strings *)

Section StringFacts.
Import PyStr.

Lemma all_chars_lstrip s : all_chars is_space (lstrip s) = all_chars is_space s.
Proof.
  induction s as [|c r IH]; simpl; [done|].
  destruct (is_space c) eqn:Hc; simpl; [done|by rewrite Hc].
Qed.

Lemma rstrip_empty s : rstrip s = "" <-> all_chars is_space s = true.
Proof.
  induction s as [|c r IH]; simpl; [done|].
  destruct (is_space c); simpl; [|done].
  destruct (rstrip r) eqn:Hr; simpl.
  - split; [intros _; by apply IH|done].
  - split; [done|]. intros H. apply IH in H. done.
Qed.

(** A text strips to nothing exactly when it holds only whitespace. *)
Lemma strip_empty s : strip s = "" <-> all_chars is_space s = true.
Proof. unfold strip. by rewrite rstrip_empty, all_chars_lstrip. Qed.

Lemma strip_eqb_empty s : String.eqb (strip s) "" = all_chars is_space s.
Proof.
  destruct (all_chars is_space s) eqn:H.
  - apply strip_empty in H. by rewrite H.
  - apply String.eqb_neq. intros E. apply strip_empty in E. congruence.
Qed.



Lemma startswith_refl s : startswith s s = true.
Proof. induction s as [|c r IH]; simpl; [done|]. by rewrite Ascii.eqb_refl. Qed.

Lemma startswith_app p s : startswith p (p +:+ s) = true.
Proof. induction p as [|c r IH]; simpl; [done|]. by rewrite Ascii.eqb_refl. Qed.

Lemma string_app_assoc (a b c : string) : (a +:+ b) +:+ c = a +:+ (b +:+ c).
Proof. induction a as [|x a IH]; [done|]. exact (f_equal (String x) IH). Qed.

Lemma string_app_empty (a : string) : a +:+ "" = a.
Proof. induction a as [|x a IH]; [done|]. exact (f_equal (String x) IH). Qed.

Lemma string_app_cons c x y : String c x +:+ y = String c (x +:+ y).
Proof. reflexivity. Qed.

Lemma string_app_nil y : "" +:+ y = y.
Proof. reflexivity. Qed.

Lemma startswith_cons a p c s :
  startswith (String a p) (String c s) = Ascii.eqb a c && startswith p s.
Proof. cbn. by destruct (Ascii.eqb a c). Qed.

Lemma startswith_nil a p : startswith (String a p) "" = false.
Proof. reflexivity. Qed.

Lemma startswith_split p s : PyStr.startswith p s = true -> exists r, s = p +:+ r.
Proof.
  revert s. induction p as [|a p IH]; intros s; [by exists s|].
  destruct s as [|c s]; [done|]. rewrite startswith_cons.
  intros [->%Ascii.eqb_eq H]%andb_true_iff. destruct (IH s H) as [r ->]. by exists r.
Qed.

End StringFacts.

(** ** The routing loop *)

Lemma fold_route {A} (p : A -> bool) (l : list A) (valid invalid : list A) :
  fold_left (route p) l (valid, invalid) =
  (valid ++ filter (fun x => p x = false) l, invalid ++ filter (fun x => p x = true) l).
Proof.
  revert valid invalid.
  induction l as [|x l IH]; intros valid invalid; simpl.
  - by rewrite !app_nil_r.
  - rewrite !filter_cons. destruct (p x) eqn:Hp; rewrite IH.
    + rewrite decide_False by done. rewrite decide_True by done.
      by rewrite <- app_assoc.
    + rewrite decide_True by done. rewrite decide_False by done.
      by rewrite <- app_assoc.
Qed.

(** The loop splits its input: the accepted records in their order, and the
    rejected records in theirs. *)
Lemma route_partition {A} (p : A -> bool) (l : list A) :
  fold_left (route p) l ([], []) =
  (filter (fun x => p x = false) l, filter (fun x => p x = true) l).
Proof. by rewrite fold_route. Qed.

(** ** XML customers *)

Lemma all_chars_Forall p s :
  PyStr.all_chars p s = true <-> Forall (fun c => p c = true) (list_ascii_of_string s).
Proof.
  induction s as [|c r IH]; simpl.
  - split; [constructor|done].
  - rewrite andb_true_iff, IH. split.
    + intros [? ?]. by constructor.
    + intros H. by inversion H.
Qed.




Local Ltac tag_in :=
  repeat first [apply list_elem_of_here | apply list_elem_of_further].



(** The scenario of the spec: three customer elements, one without a City. *)
Example xml_three_customers :
  let cust (id name : string) (city : list element) :=
    Element "Customer" None
      ([Element "CustomerID" (Some id) []; Element "Name" (Some name) []] ++ city) in
  let a := cust "1" "Ann" [Element "City" (Some "Oslo") []] in
  let b := cust "2" "Bob" [] in
  let c := cust "3" "Cid" [Element "City" (Some "Rome") []] in
  process_xml_records (XmlDoc (Element "Customers" None [a; b; c])) = Ret ([a; c], [b]).
Proof. reflexivity. Qed.

(** ** CSV feedback *)



(** ... but the function returns [None], whatever the content. *)
Lemma process_csv_records_None (content : body) :
  process_csv_records content = Ret None.
Proof. unfold process_csv_records. by destruct (csv_loop content). Qed.

(** For a key that ends in [.csv] the handler raises at the unpacking of
    that [None], before any write. *)
Lemma csv_file_raises float_of_str (k : string) (content : body) (w : world) :
  PyStr.endswith ".xml" k = false ->
  PyStr.endswith ".json" k = false ->
  PyStr.endswith ".csv" k = true ->
  s3 w !! k = Some content ->
  lambda_handler float_of_str [S3Record k] w = (w, Raise TypeError).
Proof.
  intros Hx Hj Hc Hk. unfold lambda_handler, get_object. simpl. rewrite Hk.
  unfold act_bind, route_file. rewrite Hx, Hj, Hc.
  unfold act_bind, lift. by rewrite process_csv_records_None.
Qed.

(** C1 at a feedback file with a row of Rating 5 and a row of Rating 6: the
    loop of [process_csv_records] accepts the first and rejects the second,
    but the function returns [None] and not the two lists, and the handler
    raises [TypeError] on it without writing either partition. *)
Theorem csv_validator_returns_none :
  csv_loop feedback_file =
    ([feedback_row "1" "5" "good"], [feedback_row "2" "6" "bad"]) /\
  process_csv_records feedback_file = Ret None /\
  let w := World {["raw/customer_feedback/f.csv" := feedback_file]} [] 0 in
  lambda_handler (fun _ => None) [S3Record "raw/customer_feedback/f.csv"] w
  = (w, Raise TypeError).
Proof.
  split; [reflexivity|]. split; [reflexivity|].
  intros w. by apply (csv_file_raises _ _ feedback_file).
Qed.

(** ** The quality score *)

Lemma scores_close_200 : scores_close_upto 200 = true.
Proof. vm_compute. reflexivity. Qed.

Lemma scores_close_upto_spec (total accepted rejected : nat) :
  scores_close_upto total = true ->
  (0 < accepted + rejected <= total)%nat -> score_close accepted rejected = true.
Proof.
  unfold scores_close_upto. intros Hall H.
  rewrite forallb_forall in Hall.
  specialize (Hall (accepted + rejected)%nat).
  rewrite forallb_forall in Hall.
  assert (Hn : In (accepted + rejected)%nat (seq 1 total)) by (apply in_seq; lia).
  specialize (Hall Hn accepted).
  replace (accepted + rejected - accepted)%nat with rejected in Hall by lia.
  apply Hall. apply in_seq. lia.
Qed.

Lemma score_close_bounded (accepted rejected : nat) :
  (0 < accepted + rejected <= 200)%nat -> score_close accepted rejected = true.
Proof. apply scores_close_upto_spec, scores_close_200. Qed.

(** At 29 accepted and 71 rejected records the score is not 29. *)
Lemma quality_score_inexact :
  exists q, score_value (dq_score 29 71) = Some q /\ ~ (q == exact_score 29 71)%Q.
Proof.
  eexists. split; [vm_compute; reflexivity|].
  apply Qeq_bool_neq. vm_compute. reflexivity.
Qed.

(** C6, amended: with no record at all the score is the integer 0; with
    records it is the float quotient of accepted by the total, multiplied by
    100 in floating point, which for up to 200 records is within one unit in
    the last place (2^-46) of 100 × accepted / (accepted + rejected); at 18
    accepted and 2 rejected it is exactly 90.0. *)
Theorem quality_score_rounded (accepted rejected : nat) :
  (accepted + rejected <= 200)%nat ->
  (accepted + rejected = 0%nat -> dq_score accepted rejected = ScoreInt 0) /\
  ((0 < accepted + rejected)%nat ->
     exists f q,
       dq_score accepted rejected = ScoreFloat f /\
       f = (float_of_count accepted / float_of_count (accepted + rejected) * 100)%float /\
       float_value f = Some q /\
       (Qabs (q - exact_score accepted rejected) <= ulp_100)%Q) /\
  dq_score 0 0 = ScoreInt 0 /\
  dq_score 18 2 = ScoreFloat 90.
Proof.
  intros Hle. split; [|split; [|split; vm_compute; reflexivity]].
  - intros H0. unfold dq_score. by rewrite H0.
  - intros Hpos. pose proof (score_close_bounded accepted rejected) as Hc.
    specialize (Hc (conj Hpos Hle)). unfold score_close in Hc.
    unfold dq_score in *.
    destruct (0 <? accepted + rejected)%nat eqn:Hlt; [|apply Nat.ltb_ge in Hlt; lia].
    unfold score_value in Hc.
    destruct (float_value _) as [q|] eqn:Hq; [|done].
    exists (float_of_count accepted / float_of_count (accepted + rejected) * 100)%float, q.
    split; [reflexivity|]. split; [reflexivity|]. split; [exact Hq|].
    by apply Qle_bool_iff.
Qed.

Lemma quality_score_rounded_witness :
  (18 + 2 <= 200)%nat /\
  dq_score 18 2 = ScoreFloat 90.
Proof.
  split; [lia|]. apply (quality_score_rounded 18 2). lia.
Defined.

(** ** Dates of the shape YYYY-MM-DD *)

Section DateFacts.
Import PyStr Strptime.
Local Open Scope Z_scope.

Lemma is_digit_cases c : is_digit c = true -> c ∈ digits.
Proof.
  destruct c as [[] [] [] [] [] [] [] []]; intros H; try discriminate H;
    unfold digits; repeat first [apply list_elem_of_here | apply list_elem_of_further].
Qed.










End DateFacts.

(** ** JSON purchases *)


Section PurchaseFacts.

Variable float_of_str : string -> option float.



(** On a list of records the function returns, and returns the partition of
    the list. *)
Lemma process_json_records_total (recs : list pyval) :
  process_json_records float_of_str (JsonDoc (PList recs)) =
  Ret (filter (fun r => purchase_invalid float_of_str r = false) recs,
       filter (fun r => purchase_invalid float_of_str r = true) recs).
Proof. unfold process_json_records. cbn. by rewrite route_partition. Qed.

End PurchaseFacts.

(** The scenario of the spec: an amount of -5 is rejected, an amount of 5
    accepted. *)
Example json_two_purchases float_of_str :
  let a := purchase "7" (PInt (-5)) "X" "2024-01-01" in
  let b := purchase "7" (PInt 5) "X" "2024-01-01" in
  process_json_records float_of_str (JsonDoc (PList [a; b])) = Ret ([b], [a]).
Proof. vm_compute. reflexivity. Qed.




(** The dates [strptime] accepts need no leading zero but have to exist. *)
Example strptime_dates :
  map Strptime.parses ["2024-01-05"; "2024-1-5"; "2024-02-29"; "2023-02-29"; "2024-02-30";
                       "2024-13-01"; "24-01-05"; "2024-01-05 "; "0000-01-01"]
  = [true; true; true; false; false; false; false; false; false].
Proof. vm_compute. reflexivity. Qed.

(** A NaN amount passes the comparison with zero. *)
Example nan_amount_accepted float_of_str :
  purchase_invalid float_of_str (purchase "7" (PFloat nan) "X" "2024-01-01") = false.
Proof. vm_compute. reflexivity. Qed.

(** ** Keywords in any case *)

Section KeywordFacts.
Import PyStr.

Lemma startswith_spec p s : startswith p s = true <-> exists post, s = p +:+ post.
Proof.
  split; [apply startswith_split|]. intros [post ->]. apply startswith_app.
Qed.

Lemma contains_spec p s :
  contains p s = true <-> exists pre post, s = pre +:+ p +:+ post.
Proof.
  split.
  - induction s as [|c s IH].
    + cbn. rewrite orb_false_r. intros [post ->]%startswith_spec. by exists "", post.
    + cbn [contains]. intros [H|H]%orb_true_iff.
      * apply startswith_spec in H as [post ->]. by exists "", post.
      * destruct (IH H) as (pre & post & ->). by exists (String c pre), post.
  - intros (pre & post & ->). induction pre as [|c pre IH].
    + rewrite string_app_nil. destruct (p +:+ post) eqn:E; cbn [contains];
        rewrite <- E, startswith_app; done.
    + rewrite string_app_cons. cbn [contains]. rewrite IH. apply orb_true_r.
Qed.

Lemma lower_app a b : lower (a +:+ b) = lower a +:+ lower b.
Proof.
  induction a as [|c a IH]; [done|].
  rewrite string_app_cons. cbn [lower]. by rewrite IH, string_app_cons.
Qed.

Lemma lower_split s a b :
  lower s = a +:+ b -> exists x y, s = x +:+ y /\ lower x = a /\ lower y = b.
Proof.
  revert s. induction a as [|c a IH]; intros s.
  - rewrite string_app_nil. intros <-. by exists "", s.
  - destruct s as [|d s]; [done|]. rewrite string_app_cons. cbn [lower].
    intros [= <- H]. destruct (IH s H) as (x & y & -> & <- & <-).
    by exists (String d x), y.
Qed.

(** A line mentions a keyword exactly when some part of it, put in lower
    case, is the keyword. *)
Lemma mentions_spec keyword line :
  mentions keyword line <->
  exists pre mid post, line = pre +:+ mid +:+ post /\ lower mid = keyword.
Proof.
  unfold mentions. rewrite contains_spec. split.
  - intros (pre' & post' & H).
    destruct (lower_split _ _ _ H) as (pre & rest & -> & _ & H').
    destruct (lower_split _ _ _ H') as (mid & post & -> & Hm & _).
    by exists pre, mid, post.
  - intros (pre & mid & post & -> & <-). exists (lower pre), (lower post).
    by rewrite !lower_app.
Qed.

End KeywordFacts.

(** ** Sentiment enrichment *)

Lemma concat_entries (x : string) (l : list string) :
  String.concat "" (x :: l) = x +:+ String.concat "" l.
Proof. destruct l; cbn; [by rewrite string_app_empty|done]. Qed.

Lemma fold_prompt (feedbacks : list string) (prompt : string) :
  fold_left (fun prompt fb => prompt +:+ ("- " +:+ fb +:+ newline)) feedbacks prompt
  = prompt +:+ String.concat "" (map prompt_entry feedbacks).
Proof.
  revert prompt. induction feedbacks as [|fb l IH]; intros prompt.
  - cbn. by rewrite string_app_empty.
  - change (fold_left _ (fb :: l) prompt) with
      (fold_left (fun prompt fb => prompt +:+ ("- " +:+ fb +:+ newline)) l
         (prompt +:+ prompt_entry fb)).
    rewrite IH. change (map prompt_entry (fb :: l)) with
      (prompt_entry fb :: map prompt_entry l).
    by rewrite concat_entries, string_app_assoc.
Qed.

(** The request is the header followed by one entry per feedback. *)
Lemma prompt_of_entries (feedbacks : list string) :
  prompt_of feedbacks = prompt_header +:+ String.concat "" (map prompt_entry feedbacks).
Proof. apply fold_prompt. Qed.

Lemma label_of_priority (line : string) : label_by_priority line (label_of line).
Proof.
  unfold label_by_priority, mentions, label_of.
  destruct (PyStr.contains "positive" (PyStr.lower line));
    destruct (PyStr.contains "negative" (PyStr.lower line));
    destruct (PyStr.contains "neutral" (PyStr.lower line)); cbn;
    repeat split; intros; congruence.
Qed.

Lemma label_of_values (line : string) :
  label_of line ∈ ["Positive"; "Negative"; "Neutral"; "Unknown"].
Proof.
  unfold label_of.
  destruct (PyStr.contains "positive" _); [tag_in|].
  destruct (PyStr.contains "negative" _); [tag_in|].
  destruct (PyStr.contains "neutral" _); tag_in.
Qed.

(** A line that mentions two keywords gets the label of the first in that
    order, not the label of each. *)
Lemma label_counterexample :
  ~ label_per_keyword "Not positive: negative" (label_of "Not positive: negative").
Proof.
  intros (_ & Hneg & _).
  assert (H : mentions "negative" "Not positive: negative") by reflexivity.
  apply Hneg in H. vm_compute in H. discriminate.
Qed.

Section Enrichment.

Variable invoke_model : string -> py string.

(** C5, amended: an empty partition sends no request; a non-empty one sends
    exactly one, the header followed by one entry per row with its Feedback
    text; the lines of the stripped response are matched with the rows by
    position, row i getting the label of line i, and the pairs stop at the
    shorter of the two; the label is the first keyword among positive,
    negative, neutral that the line contains in any case, Unknown when it has
    none. *)
Theorem sentiment_batch (partition : list row) (text : string) :
  partition <> [] ->
  invoke_model (prompt_of (map Feedback partition)) = Ret text ->
  let lines := PyStr.split_nl (PyStr.strip text) in
  batch_sentiment invoke_model [] = Ret ([], []) /\
  exists prompt pairs,
    batch_sentiment invoke_model partition = Ret ([prompt], pairs) /\
    prompt = prompt_header +:+
             String.concat "" (map (fun r => prompt_entry (Feedback r)) partition) /\
    length pairs = min (length partition) (length lines) /\
    (forall i r line,
       partition !! i = Some r -> lines !! i = Some line ->
       pairs !! i = Some (CustomerID r, label_of line)) /\
    (forall i, (min (length partition) (length lines) <= i)%nat -> pairs !! i = None) /\
    (forall line, label_by_priority line (label_of line)).
Proof.
  intros Hne Hresp lines. split; [reflexivity|].
  unfold batch_sentiment.
  destruct partition as [|r0 rest] eqn:Hp; [done|]. rewrite <- Hp in *.
  replace (negb (nonempty partition)) with false by (by rewrite Hp).
  rewrite Hresp. cbn. eexists _, _. split; [reflexivity|].
  split; [by rewrite prompt_of_entries, map_map|].
  fold lines. split; [by rewrite length_map, length_zip|]. split; [|split].
  - intros i r line Hr Hl. rewrite list_lookup_fmap.
    assert (Hz : zip partition lines !! i = Some (r, line))
      by (by apply lookup_zip_Some).
    by rewrite Hz.
  - intros i Hi. apply lookup_ge_None. by rewrite length_map, length_zip.
  - apply label_of_priority.
Qed.

End Enrichment.

Example sentiment_two_lines :
  batch_sentiment (fun _ => Ret ("Positive" +:+ newline +:+ "Negative")) two_rows
  = Ret (["Classify sentiment (Positive / Negative / Neutral) for each line:"
          +:+ newline +:+ newline +:+ "- great" +:+ newline
          +:+ "- terrible" +:+ newline],
         [("1", "Positive"); ("2", "Negative")]).
Proof. reflexivity. Qed.

Example sentiment_one_line :
  snd <$> (match batch_sentiment (fun _ => Ret "Positive") two_rows with
           | Ret r => Some r | Raise _ => None end)
  = Some [("1", "Positive")].
Proof. reflexivity. Qed.

Lemma sentiment_batch_witness :
  two_rows <> [] /\
  exists prompt pairs,
    batch_sentiment (fun _ => Ret "Positive") two_rows = Ret ([prompt], pairs) /\
    length pairs = 1%nat.
Proof.
  split; [discriminate|].
  destruct (sentiment_batch (fun _ => Ret "Positive") two_rows "Positive")
    as (_ & prompt & pairs & Hrun & _ & Hlen & _); [discriminate|reflexivity|].
  exists prompt, pairs. split; [exact Hrun|exact Hlen].
Defined.

(** ** The final join *)

(** A row of the joined dataset carries null when no pair was yielded for
    its CustomerID, and otherwise the sentiment of such a pair. *)
Lemma left_join_elem (rows : list row) (sentiment_df : list (string * string))
    (r : row) (s : option string) :
  (r, s) ∈ left_join rows sentiment_df <->
  r ∈ rows /\
  ((s = None /\ forall l, (CustomerID r, l) ∉ sentiment_df) \/
   (exists l, s = Some l /\ (CustomerID r, l) ∈ sentiment_df)).
Proof.
  unfold left_join. rewrite list_elem_of_In, in_flat_map. split.
  - intros (r' & Hr' & Hin). apply list_elem_of_In in Hr', Hin.
    destruct (filter _ sentiment_df) as [|m ms] eqn:Hf.
    + apply list_elem_of_singleton in Hin. injection Hin as -> ->.
      split; [done|]. left. split; [done|]. intros l Hl.
      assert (Hm : (CustomerID r', l) ∈ filter (fun p => p.1 = CustomerID r') sentiment_df)
        by (by apply list_elem_of_filter).
      rewrite Hf in Hm. by apply elem_of_nil in Hm.
    + apply list_elem_of_fmap in Hin as ([c l] & Heq & Hm). injection Heq as -> ->.
      split; [done|]. right. exists l. split; [done|].
      rewrite <- Hf in Hm. apply list_elem_of_filter in Hm as [Hc Hm].
      cbn in Hc. by subst c.
  - intros (Hr & Hs). exists r. split; [by apply list_elem_of_In|].
    apply list_elem_of_In.
    destruct (filter _ sentiment_df) as [|m ms] eqn:Hf.
    + destruct Hs as [[-> _] | (l & -> & Hl)]; [by apply list_elem_of_singleton|].
      assert (Hm : (CustomerID r, l) ∈ filter (fun p => p.1 = CustomerID r) sentiment_df)
        by (by apply list_elem_of_filter).
      rewrite Hf in Hm. by apply elem_of_nil in Hm.
    + rewrite <- Hf. destruct Hs as [[-> Hno] | (l & -> & Hl)].
      * assert (Hm : m ∈ filter (fun p => p.1 = CustomerID r) sentiment_df)
          by (rewrite Hf; apply list_elem_of_here).
        apply list_elem_of_filter in Hm as [Hc Hm]. destruct m as [c l].
        cbn in Hc. subst c. by apply Hno in Hm.
      * apply list_elem_of_fmap. exists (CustomerID r, l). split; [done|].
        by apply list_elem_of_filter.
Qed.

Section FinalDataset.

Variable invoke_model : string -> py string.

Lemma batch_sentiment_labels (partition : list row) sent pairs :
  batch_sentiment invoke_model partition = Ret (sent, pairs) ->
  forall c l, (c, l) ∈ pairs -> l ∈ labels.
Proof.
  unfold batch_sentiment. destruct (negb (nonempty partition)).
  - intros [= <- <-] c l H. by apply elem_of_nil in H.
  - destruct (invoke_model _) as [text|e]; [|done]. cbn.
    intros [= <- <-] c l H. apply list_elem_of_fmap in H as ([r line] & [= -> ->] & _).
    apply label_of_values.
Qed.

Lemma mapPartitions_labels (partitions : list (list row)) sent sentiment_df :
  mapPartitions invoke_model partitions = Ret (sent, sentiment_df) ->
  forall c l, (c, l) ∈ sentiment_df -> l ∈ labels.
Proof.
  revert sent sentiment_df. induction partitions as [|p rest IH]; cbn.
  - intros ? ? [= <- <-] c l H. by apply elem_of_nil in H.
  - intros sent sentiment_df.
    destruct (batch_sentiment invoke_model p) as [[s1 p1]|e] eqn:Hb; [|done]. cbn.
    destruct (mapPartitions invoke_model rest) as [[s2 p2]|e] eqn:Hm; [|done]. cbn.
    intros [= <- <-] c l H. apply elem_of_app in H as [H|H].
    + by eapply batch_sentiment_labels.
    + by eapply IH.
Qed.

End FinalDataset.

(** ** Responses with a line for every row *)

Section FullResponses.

Variable invoke_model : string -> py string.

Lemma mapPartitions_full (partitions : list (list row)) :
  answered_in_full invoke_model partitions ->
  exists sent sentiment_df,
    mapPartitions invoke_model partitions = Ret (sent, sentiment_df) /\
    map fst sentiment_df = map CustomerID (concat partitions).
Proof.
  induction partitions as [|p rest IH]; intros Hfull.
  - by exists [], [].
  - destruct IH as (sent & sdf & Hm & Hfst).
    { intros q Hq. apply Hfull. by apply list_elem_of_further. }
    cbn [mapPartitions concat]. unfold batch_sentiment.
    destruct p as [|r p'] eqn:Hp.
    + cbn. rewrite Hm. cbn. by exists sent, sdf.
    + rewrite <- Hp in *.
      replace (negb (nonempty p)) with false by (by rewrite Hp).
      destruct (Hfull p) as (text & Htext & Hlen);
        [apply list_elem_of_here|by rewrite Hp|].
      rewrite Htext. cbn. rewrite Hm. cbn. eexists _, _. split; [reflexivity|].
      rewrite !map_app, Hfst. f_equal. rewrite map_map. cbn.
      rewrite <- (map_map fst CustomerID). f_equal.
      by apply fst_zip.
Qed.

(** With such responses no row of the join has a null Sentiment. *)
Lemma full_responses_no_null (partitions : list (list row)) sent sentiment_df r s :
  answered_in_full invoke_model partitions ->
  mapPartitions invoke_model partitions = Ret (sent, sentiment_df) ->
  (r, s) ∈ left_join (concat partitions) sentiment_df ->
  exists l, s = Some l /\ l ∈ labels.
Proof.
  intros Hfull Hm Hin.
  destruct (mapPartitions_full partitions Hfull) as (sent' & sdf' & Hm' & Hfst).
  rewrite Hm in Hm'. injection Hm' as <- <-.
  apply left_join_elem in Hin as [Hr [[-> Hno] | (l & -> & Hl)]].
  - exfalso. assert (Hc : CustomerID r ∈ map fst sentiment_df).
    { rewrite Hfst. by apply list_elem_of_fmap_2. }
    apply list_elem_of_fmap in Hc as ([c l] & Hc & Hl). cbn in Hc. subst c.
    by apply (Hno l).
  - exists l. split; [done|]. by eapply mapPartitions_labels.
Qed.

End FullResponses.

(** ** The run of the consolidation job *)

Section JobRun.

Variable invoke_model : string -> py string.
Variable outage : call -> option exn.
Variable job_id : string.
Variable consolidate : py (nat * list (list row)).

Local Abbreviation run := (glue_job invoke_model outage job_id consolidate).

(** What a run leaves behind, by the statement that raises. *)
Lemma glue_job_cases (w : job_world) :
  outage PutItem = None ->
  let w' := fst (run w) in
  (raises_before_write invoke_model consolidate /\ (exists e, snd (run w) = Raise e) /\
     run_status job_id w' = Some "RUNNING" /\ golden w' = golden w /\
     committed w' = committed w)
  \/
  (exists valid_records partitions sent sentiment_df,
     consolidate = Ret (valid_records, partitions) /\
     mapPartitions invoke_model partitions = Ret (sent, sentiment_df) /\
     requests w' = requests w ++ sent /\
     ((is_Some (outage JdbcWrite) /\ (exists e, snd (run w) = Raise e) /\
         run_status job_id w' = Some "RUNNING" /\ golden w' = golden w)
      \/
      (outage JdbcWrite = None /\
       golden w' = Some (left_join (concat partitions) sentiment_df) /\
       ((is_Some (outage UpdateItem) /\ (exists e, snd (run w) = Raise e) /\
           run_status job_id w' = Some "RUNNING")
        \/
        (outage UpdateItem = None /\ run_status job_id w' = Some "SUCCESS" /\
           ((is_Some (outage Commit) /\ exists e, snd (run w) = Raise e) \/
            (outage Commit = None /\ snd (run w) = Ret tt /\ committed w' = true))))))).
Proof.
  intros Hput. unfold glue_job, job_bind, put_item, enrich, write_golden,
    update_item, commit, calling, run_status, raises_before_write.
  rewrite Hput. cbn.
  destruct consolidate as [[n parts]|e0] eqn:Hc; cbn; cycle 1.
  { left. rewrite lookup_insert_eq. split; [by left|]. eauto. }
  destruct (mapPartitions invoke_model parts) as [[sent sdf]|e1] eqn:Hm; cbn; cycle 1.
  { left. rewrite lookup_insert_eq. split; [|by eauto].
    right. exists n, parts. by rewrite Hm. }
  right. exists n, parts, sent, sdf. split; [done|]. split; [done|].
  destruct (outage JdbcWrite) as [e2|] eqn:Hw; cbn.
  { split; [done|]. left. rewrite lookup_insert_eq. eauto 10. }
  destruct (outage UpdateItem) as [e3|] eqn:Hu; cbn.
  { split; [done|]. right. split; [done|]. split; [done|]. left.
    rewrite lookup_insert_eq. eauto 10. }
  destruct (outage Commit) as [e4|] eqn:Hk; cbn.
  { split; [done|]. right. split; [done|]. split; [done|]. right.
    rewrite lookup_insert_eq. split; [done|]. split; [done|]. left. eauto. }
  split; [done|]. right. split; [done|]. split; [done|]. right.
  rewrite lookup_insert_eq. split; [done|]. split; [done|]. right. done.
Qed.

End JobRun.




(** A response of one line for a partition of two rows: the second row is
    written with a null Sentiment. *)
Lemma golden_null_sentiment :
  golden (fst (glue_job (fun _ => Ret "Positive") (fun _ => None)
                 "Customer-360_20240101000000" (Ret (2%nat, [two_rows]))
                 (JobWorld ∅ None [] false)))
  = Some [(Row "1" "great" [], Some "Positive"); (Row "2" "terrible" [], None)].
Proof. vm_compute. reflexivity. Qed.

(** C4, amended: a run either leaves the final dataset as it was or writes
    the left join of the consolidated rows with the pairs the enrichment
    yielded; in every row of it the Sentiment is one of Positive, Negative,
    Neutral, Unknown, taken from a pair of the row's CustomerID, or it is
    null, which happens exactly when no pair was yielded for that
    CustomerID; it is never null when every response has a line for every
    row of its partition. *)
Theorem golden_sentiment_values
    (invoke_model : string -> py string) (outage : call -> option exn)
    (job_id : string) (consolidate : py (nat * list (list row))) (w : job_world) :
  let w' := fst (glue_job invoke_model outage job_id consolidate w) in
  golden w' = golden w \/
  exists valid_records partitions sent sentiment_df,
    consolidate = Ret (valid_records, partitions) /\
    mapPartitions invoke_model partitions = Ret (sent, sentiment_df) /\
    golden w' = Some (left_join (concat partitions) sentiment_df) /\
    (forall r s,
       (r, s) ∈ left_join (concat partitions) sentiment_df ->
       (s = None /\ forall l, (CustomerID r, l) ∉ sentiment_df) \/
       (exists l, s = Some l /\ l ∈ labels /\ (CustomerID r, l) ∈ sentiment_df)) /\
    (answered_in_full invoke_model partitions ->
     forall r s,
       (r, s) ∈ left_join (concat partitions) sentiment_df ->
       exists l, s = Some l /\ l ∈ labels).
Proof.
  intros w'. unfold w'.
  destruct (outage PutItem) as [e|] eqn:Hput.
  { left. unfold glue_job, job_bind, put_item, calling. by rewrite Hput. }
  pose proof (glue_job_cases invoke_model outage job_id consolidate w Hput) as H.
  cbn zeta in H.
  destruct H as [(_ & _ & _ & Hg & _) | (n & parts & sent & sdf & Hcons & Hmap & _ & H)];
    [by left|].
  destruct H as [(_ & _ & _ & Hg) | (_ & Hg & _)]; [by left|].
  right. exists n, parts, sent, sdf. split; [done|]. split; [done|]. split; [done|].
  split.
  - intros r s Hin. apply left_join_elem in Hin as [_ [Hnone | (l & -> & Hl)]].
    + by left.
    + right. exists l. split; [done|]. split; [|done].
      by eapply mapPartitions_labels.
  - intros Hfull r s Hin. by eapply full_responses_no_null.
Qed.

(** ** The validation stage as a function of the world *)

Section HandlerFacts.

Variable float_of_str : string -> option float.

Lemma set_s3_id (w : world) : set_s3 (fun m => m) w = w.
Proof. by destruct w. Qed.

Lemma route_file_spec (k : string) (content : body) (w : world) :
  route_file float_of_str k content w =
  match file_partitions float_of_str k content with
  | Ret (ps, counts) => (set_s3 (apply_puts ps) w, Ret counts)
  | Raise e => (w, Raise e)
  end.
Proof.
  unfold route_file, file_partitions.
  destruct (PyStr.endswith ".xml" k).
  { unfold act_bind, lift. destruct (process_xml_records content) as [[valid invalid]|e];
      [|done]. cbn.
    destruct valid, invalid; cbn; by destruct w. }
  destruct (PyStr.endswith ".json" k).
  { unfold act_bind, lift.
    destruct (process_json_records float_of_str content) as [[valid invalid]|e];
      [|done]. cbn.
    destruct valid, invalid; cbn; by destruct w. }
  destruct (PyStr.endswith ".csv" k).
  { unfold act_bind, lift. by rewrite process_csv_records_None. }
  cbn. by destruct w.
Qed.

Lemma rescan_total side store keys total t :
  rescan float_of_str side store keys total = Ret t ->
  t = (total + sum_list (map (contribution float_of_str side store) keys))%nat.
Proof.
  revert total. induction keys as [|k keys IH]; intros total; cbn.
  - intros [= <-]. lia.
  - unfold contribution at 1, get_object.
    destruct (store !! k) as [b|]; cbn; [|done].
    destruct (revalidate float_of_str k b) as [[counts|]|e]; cbn; [| |done].
    + intros H. apply IH in H. lia.
    + intros H. apply IH in H. lia.
Qed.

Lemma lambda_handler_spec (record : s3_record) (rest : list s3_record)
    (w : world) (content : body) :
  s3 w !! key record = Some content ->
  lambda_handler float_of_str (record :: rest) w =
  match file_partitions float_of_str (key record) content with
  | Raise e => (w, Raise e)
  | Ret (ps, (nv, ni)) => after_rescans float_of_str w (apply_puts ps (s3 w)) nv ni
  end.
Proof.
  intros Hk. unfold lambda_handler, get_object. rewrite Hk.
  unfold act_bind at 1. rewrite route_file_spec.
  destruct (file_partitions float_of_str (key record) content) as [[ps [nv ni]]|e];
    [|done].
  unfold after_rescans, act_bind, totals. cbn.
  destruct (rescan float_of_str fst _ _ nv) as [tv|e]; cbn; [|done].
  destruct (rescan float_of_str snd _ _ ni) as [ti|e]; cbn; [|done].
  unfold when, report_validation_failure, start_job_run, act_ret.
  destruct ti, tv; cbn; by rewrite ?app_nil_r.
Qed.

Lemma lambda_handler_missing (record : s3_record) (rest : list s3_record) (w : world) :
  s3 w !! key record = None ->
  lambda_handler float_of_str (record :: rest) w =
  (World (s3 w) (glue_runs w) (S (cw_failures w)), Ret "Failed to read file").
Proof. intros Hk. unfold lambda_handler, get_object. by rewrite Hk. Qed.

End HandlerFacts.

(** ** The batch trigger *)

(** A file of rejected records only, uploaded when an earlier file has left
    accepted records under validated/: the job is started. *)
Lemma rejection_only_file_triggers :
  process_json_records (fun _ => None) new_purchases
    = Ret ([], [purchase "8" (PInt (-5)) "Y" "2024-01-02"]) /\
  length (glue_runs (fst (lambda_handler (fun _ => None)
                            [S3Record "raw/customer_purchases/new.json"]
                            corpus_with_history))) = 1%nat.
Proof. vm_compute. done. Qed.

(** C2, amended: an invocation that reads its file and completes starts the
    job iff the accepted records of the file plus those re-validated from
    every object under validated/ are more than zero, so a file with accepted
    records starts it and a file of rejected records starts it as well when
    the prefix holds accepted records; an invocation that raises starts no
    job. *)
Theorem trigger_follows_corpus float_of_str (record : s3_record)
    (rest : list s3_record) (w w' : world) (content : body) (r : py string) :
  s3 w !! key record = Some content ->
  lambda_handler float_of_str (record :: rest) w = (w', r) ->
  (forall e, r = Raise e -> glue_runs w' = glue_runs w) /\
  (forall st, r = Ret st ->
     exists ps accepted rejected,
       file_partitions float_of_str (key record) content = Ret (ps, (accepted, rejected)) /\
       let corpus :=
         sum_list (map (contribution float_of_str fst (s3 w'))
                       (list_objects_v2 (s3 w') "validated/")) in
       ((0 < accepted + corpus)%nat -> exists args, glue_runs w' = glue_runs w ++ [args]) /\
       ((accepted + corpus = 0)%nat -> glue_runs w' = glue_runs w) /\
       ((0 < accepted)%nat -> exists args, glue_runs w' = glue_runs w ++ [args])).
Proof.
  intros Hk. rewrite (lambda_handler_spec _ _ _ _ _ Hk).
  destruct (file_partitions float_of_str (key record) content)
    as [[ps [nv ni]]|e0] eqn:Hf.
  2:{ intros [= <- <-]. split; [done|]. intros st [=]. }
  unfold after_rescans.
  destruct (rescan float_of_str fst _ _ nv) as [tv|e1] eqn:Hv.
  2:{ intros [= <- <-]. split; [done|]. intros st [=]. }
  destruct (rescan float_of_str snd _ _ ni) as [ti|e2] eqn:Hi.
  2:{ intros [= <- <-]. split; [done|]. intros st [=]. }
  intros [= <- <-]. split; [intros e [=]|]. intros st _.
  exists ps, nv, ni. split; [done|]. cbn [s3 glue_runs fst snd].
  apply rescan_total in Hv. rewrite <- Hv.
  destruct (0 <? tv)%nat eqn:Ht.
  - split; [intros _; eexists; reflexivity|].
    split; [|intros _; eexists; reflexivity]. apply Nat.ltb_lt in Ht. lia.
  - apply Nat.ltb_ge in Ht. rewrite app_nil_r. split; [lia|]. split; [done|]. lia.
Qed.

Lemma trigger_follows_corpus_witness :
  exists ps accepted rejected,
    file_partitions (fun _ => None) "raw/customer_purchases/new.json" new_purchases
    = Ret (ps, (accepted, rejected)).
Proof.
  pose (out := lambda_handler (fun _ => None)
                 [S3Record "raw/customer_purchases/new.json"] corpus_with_history).
  assert (Hk : s3 corpus_with_history !! key (S3Record "raw/customer_purchases/new.json")
               = Some new_purchases) by (vm_compute; reflexivity).
  assert (Hr : snd out = Ret "Record-level processing complete")
    by (vm_compute; reflexivity).
  destruct (trigger_follows_corpus (fun _ => None)
              (S3Record "raw/customer_purchases/new.json") []
              corpus_with_history (fst out) new_purchases (snd out) Hk
              (surjective_pairing out))
    as [_ H].
  destruct (H _ Hr) as (ps & accepted & rejected & Hf & _).
  exists ps, accepted, rejected. exact Hf.
Defined.

(** ** Partition paths *)

Section ReplaceFacts.
Import PyStr.

Lemma startswith_head a old c s :
  startswith (String a old) (String c s) = true -> c = a.
Proof. cbn. destruct (Ascii.eqb a c) eqn:E; [|done]. apply Ascii.eqb_eq in E. done. Qed.

Lemma replace_step old new c s :
  replace old new (String c s) =
  if startswith old (String c s)
  then new +:+ replace_from old new (String.length old - 1) s
  else String c (replace old new s).
Proof. reflexivity. Qed.

(** Where [old] occurs, replacing it by a text with another first
    character changes the key. *)
Lemma replace_changes a old b new s :
  a <> b ->
  contains (String a old) s = true ->
  replace (String a old) (String b new) s <> s.
Proof.
  intros Hab. induction s as [|c s IH]; [done|].
  intros Hc. rewrite replace_step.
  destruct (startswith (String a old) (String c s)) eqn:Hs.
  - apply startswith_head in Hs. subst c. intros [= E]. by apply Hab.
  - cbn [contains] in Hc. rewrite Hs in Hc. cbn in Hc.
    intros [= E]. by apply IH.
Qed.

(** Two replacements that start with different characters give different
    keys. *)
Lemma replace_differ a old b new b' new' s :
  b <> b' ->
  contains (String a old) s = true ->
  replace (String a old) (String b new) s <> replace (String a old) (String b' new') s.
Proof.
  intros Hb. induction s as [|c s IH]; [done|].
  intros Hc. rewrite !replace_step.
  destruct (startswith (String a old) (String c s)) eqn:Hs.
  - intros [= E]. by apply Hb.
  - cbn [contains] in Hc. rewrite Hs in Hc. cbn in Hc.
    intros [= E]. by apply IH.
Qed.

Lemma contains_no_occurrence old s :
  contains old s = false -> replace old "validated/" s = s /\ replace old "error/" s = s.
Proof.
  induction s as [|c s IH]; [done|].
  intros Hc. cbn [contains] in Hc. apply orb_false_iff in Hc as [Hs Hc].
  rewrite !replace_step, Hs. destruct (IH Hc) as [-> ->]. done.
Qed.

End ReplaceFacts.

Lemma validated_key_fresh k : PyStr.contains "raw/" k = true -> validated_key k <> k.
Proof. by apply replace_changes. Qed.

Lemma error_key_fresh k : PyStr.contains "raw/" k = true -> error_key k <> k.
Proof. by apply replace_changes. Qed.

Lemma validated_key_not_error k :
  PyStr.contains "raw/" k = true -> validated_key k <> error_key k.
Proof. by apply replace_differ. Qed.



(** ** Re-processing a file *)

Section Reprocessing.

Variable float_of_str : string -> option float.

(** A key holds the last body written to it, or what it held before. *)
Lemma apply_puts_lookup ps (store : gmap string body) k :
  apply_puts ps store !! k = fold_left (overwrite k) ps (store !! k).
Proof.
  revert store. induction ps as [|[k' b] ps IH]; intros store; [done|].
  cbn. rewrite IH. f_equal. unfold overwrite. cbn.
  rewrite lookup_insert. by destruct (decide (k' = k)).
Qed.

Lemma overwrite_fold ps k :
  (forall acc, fold_left (overwrite k) ps acc = acc) \/
  (exists b, forall acc, fold_left (overwrite k) ps acc = Some b).
Proof.
  induction ps as [|kb ps IH]; [by left|].
  cbn. destruct IH as [Hid | [b Hb]].
  - unfold overwrite at 2 4. destruct (decide (kb.1 = k)).
    + right. exists kb.2. intros acc. apply Hid.
    + left. intros acc. apply Hid.
  - right. exists b. intros acc. apply Hb.
Qed.

(** Writing the same objects a second time changes nothing. *)
Lemma apply_puts_twice ps (store : gmap string body) :
  apply_puts ps (apply_puts ps store) = apply_puts ps store.
Proof.
  apply map_eq. intros k. rewrite !apply_puts_lookup.
  destruct (overwrite_fold ps k) as [Hid | [b Hb]].
  - by rewrite !Hid.
  - by rewrite !Hb.
Qed.

Lemma apply_puts_other ps (store : gmap string body) k :
  (forall kb, kb ∈ ps -> kb.1 <> k) ->
  apply_puts ps store !! k = store !! k.
Proof.
  rewrite apply_puts_lookup. generalize (store !! k).
  induction ps as [|kb ps IH]; intros acc Hps; [done|].
  cbn. rewrite IH.
  - unfold overwrite. rewrite decide_False; [done|]. apply Hps. apply list_elem_of_here.
  - intros kb' Hin. apply Hps. by apply list_elem_of_further.
Qed.

Lemma puts_keys {A} (serialize : list A -> body) k valid invalid kb :
  kb ∈ puts serialize k valid invalid ->
  (kb.1 = validated_key k /\ valid <> []) \/ (kb.1 = error_key k /\ invalid <> []).
Proof.
  unfold puts. intros [H|H]%elem_of_app.
  - destruct valid; cbn in H; [by apply elem_of_nil in H|].
    apply list_elem_of_singleton in H as ->. by left.
  - destruct invalid; cbn in H; [by apply elem_of_nil in H|].
    apply list_elem_of_singleton in H as ->. by right.
Qed.

(** The writes of an invocation go to the two keys derived from the key of
    the file, and to a side only when it has records. *)
Lemma file_partitions_keys k content ps accepted rejected kb :
  file_partitions float_of_str k content = Ret (ps, (accepted, rejected)) ->
  kb ∈ ps ->
  (kb.1 = validated_key k /\ (0 < accepted)%nat) \/
  (kb.1 = error_key k /\ (0 < rejected)%nat).
Proof.
  unfold file_partitions.
  destruct (PyStr.endswith ".xml" k).
  { destruct (process_xml_records content) as [[valid invalid]|e]; [|done]. cbn.
    intros [= <- <- <-] [[? Hne]|[? Hne]]%puts_keys; [left|right]; split; try done.
    - destruct valid; [done|cbn; lia].
    - destruct invalid; [done|cbn; lia]. }
  destruct (PyStr.endswith ".json" k).
  { destruct (process_json_records float_of_str content) as [[valid invalid]|e];
      [|done]. cbn.
    intros [= <- <- <-] [[? Hne]|[? Hne]]%puts_keys; [left|right]; split; try done.
    - destruct valid; [done|cbn; lia].
    - destruct invalid; [done|cbn; lia]. }
  destruct (PyStr.endswith ".csv" k); [done|].
  intros [= <- <- <-] H. by apply elem_of_nil in H.
Qed.

(** The objects of the bucket after an invocation. *)
Lemma lambda_handler_store k (w : world) :
  s3 (fst (lambda_handler float_of_str [S3Record k] w)) =
  match s3 w !! k with
  | None => s3 w
  | Some content =>
      match file_partitions float_of_str k content with
      | Ret (ps, _) => apply_puts ps (s3 w)
      | Raise _ => s3 w
      end
  end.
Proof.
  destruct (s3 w !! k) as [content|] eqn:Hk.
  - rewrite (lambda_handler_spec _ (S3Record k) [] w content Hk). cbn.
    destruct (file_partitions float_of_str k content) as [[ps [nv ni]]|e]; [|done].
    unfold after_rescans.
    destruct (rescan float_of_str fst _ _ nv) as [tv|e1]; [|done].
    by destruct (rescan float_of_str snd _ _ ni) as [ti|e2].
  - by rewrite (lambda_handler_missing _ (S3Record k) [] w Hk).
Qed.

(** C9: for a source file, an object whose key holds the segment raw/,
    running the stage a second time on the same file leaves the bucket as the
    first run left it; the stage writes at the two keys derived from the key
    of the file and nowhere else, and a side without records is not
    written. *)
Theorem reprocessing_idempotent (k : string) (w : world) :
  PyStr.contains "raw/" k = true ->
  let stage := fun w => fst (lambda_handler float_of_str [S3Record k] w) in
  s3 (stage (stage w)) = s3 (stage w) /\
  (forall k', k' <> validated_key k -> k' <> error_key k ->
              s3 (stage w) !! k' = s3 w !! k') /\
  (forall content ps accepted rejected,
     s3 w !! k = Some content ->
     file_partitions float_of_str k content = Ret (ps, (accepted, rejected)) ->
     (accepted = 0%nat -> s3 (stage w) !! validated_key k = s3 w !! validated_key k) /\
     (rejected = 0%nat -> s3 (stage w) !! error_key k = s3 w !! error_key k)).
Proof.
  intros Hraw stage. unfold stage.
  pose proof (validated_key_fresh k Hraw) as Hv.
  pose proof (error_key_fresh k Hraw) as He.
  pose proof (validated_key_not_error k Hraw) as Hve.
  pose proof (lambda_handler_store k w) as H1.
  set (w1 := fst (lambda_handler float_of_str [S3Record k] w)) in *.
  rewrite (lambda_handler_store k w1), H1. clearbody w1.
  destruct (s3 w !! k) as [content|] eqn:Hk.
  2:{ rewrite Hk. split; [done|]. split; [done|intros; done]. }
  destruct (file_partitions float_of_str k content) as [[ps [nv ni]]|e] eqn:Hf.
  2:{ rewrite Hk, Hf. split; [done|]. split; [done|intros; done]. }
  assert (Hsame : apply_puts ps (s3 w) !! k = Some content).
  { rewrite apply_puts_other; [done|]. intros kb Hin.
    destruct (file_partitions_keys _ _ _ _ _ _ Hf Hin) as [[-> _]|[-> _]]; done. }
  split; [|split].
  - rewrite Hsame, Hf. apply apply_puts_twice.
  - intros k' Hk1 Hk2. apply apply_puts_other. intros kb Hin.
    destruct (file_partitions_keys _ _ _ _ _ _ Hf Hin) as [[-> _]|[-> _]]; done.
  - intros content' ps' accepted rejected [= <-]. rewrite Hf. intros [= <- <- <-].
    split; intros ->; apply apply_puts_other; intros kb Hin;
      destruct (file_partitions_keys _ _ _ _ _ _ Hf Hin) as [[Hkb Hn]|[Hkb Hn]];
      rewrite Hkb; try done; lia.
Qed.

End Reprocessing.

Lemma reprocessing_idempotent_witness :
  let stage := fun w => fst (lambda_handler (fun _ => None)
                               [S3Record "raw/customer_purchases/new.json"] w) in
  s3 (stage (stage corpus_with_history)) = s3 (stage corpus_with_history).
Proof.
  apply (reprocessing_idempotent (fun _ => None) "raw/customer_purchases/new.json"
           corpus_with_history eq_refl).
Defined.

(** ** Suffixes of routed keys *)

Section SuffixFacts.
Import PyStr.

Lemma startswith_app_l p x y : startswith p x = true -> startswith p (x +:+ y) = true.
Proof.
  revert x. induction p as [|a p IH]; intros x; [done|].
  destruct x as [|c x]; [done|]. rewrite string_app_cons. cbn.
  destruct (Ascii.eqb a c); [apply IH|done].
Qed.

Lemma no_slash_cons c s : no_slash (String c s) = negb (Ascii.eqb c "/") && no_slash s.
Proof. reflexivity. Qed.

(** An occurrence of "raw/" that starts in [t] ends in [t] when what follows
    has no slash. *)
Lemma raw_occurrence_inside t suf :
  no_slash suf = true ->
  startswith "raw/" (t +:+ suf) = true ->
  exists t', t = "raw/" +:+ t'.
Proof.
  intros Hs H.
  assert (Hno : forall x, no_slash x = true -> startswith "/" x = false).
  { intros [|c x]; [done|]. rewrite no_slash_cons, startswith_cons.
    intros [Hc _]%andb_true_iff. apply negb_true_iff in Hc.
    by rewrite Ascii.eqb_sym, Hc. }
  assert (Hstep : forall c x, no_slash (String c x) = true -> no_slash x = true).
  { intros c x. rewrite no_slash_cons. by intros [_ ?]%andb_true_iff. }
  destruct t as [|c1 t].
  { rewrite string_app_nil in H. destruct suf as [|a [|b [|c suf]]];
      rewrite ?startswith_cons, ?startswith_nil, ?andb_false_r in H;
      try discriminate H.
    apply Hstep, Hstep, Hstep, Hno in Hs.
    rewrite Hs in H. by rewrite !andb_false_r in H. }
  rewrite string_app_cons, startswith_cons in H.
  apply andb_true_iff in H as [->%Ascii.eqb_eq H].
  destruct t as [|c2 t].
  { rewrite string_app_nil in H. destruct suf as [|a [|b suf]];
      rewrite ?startswith_cons, ?startswith_nil, ?andb_false_r in H;
      try discriminate H.
    apply Hstep, Hstep, Hno in Hs.
    rewrite Hs in H. by rewrite !andb_false_r in H. }
  rewrite string_app_cons, startswith_cons in H.
  apply andb_true_iff in H as [->%Ascii.eqb_eq H].
  destruct t as [|c3 t].
  { rewrite string_app_nil in H. destruct suf as [|a suf];
      rewrite ?startswith_cons, ?startswith_nil, ?andb_false_r in H;
      try discriminate H.
    apply Hstep, Hno in Hs.
    rewrite Hs in H. by rewrite !andb_false_r in H. }
  rewrite string_app_cons, startswith_cons in H.
  apply andb_true_iff in H as [->%Ascii.eqb_eq H].
  destruct t as [|c4 t].
  { rewrite string_app_nil in H. apply Hno in Hs. congruence. }
  rewrite string_app_cons, startswith_cons in H.
  apply andb_true_iff in H as [->%Ascii.eqb_eq H].
  by exists t.
Qed.

Lemma replace_no_slash new s : no_slash s = true -> replace "raw/" new s = s.
Proof.
  induction s as [|a s IH]; [done|]. intros Hs.
  rewrite replace_step.
  destruct (startswith "raw/" (String a s)) eqn:Hst.
  - destruct (raw_occurrence_inside "" (String a s) Hs Hst) as [t' Ht']. done.
  - f_equal. apply IH. rewrite no_slash_cons in Hs. by apply andb_true_iff in Hs as [_ ?].
Qed.

Lemma replace_from_skip old new k c s :
  replace_from old new (S k) (String c s) = replace_from old new k s.
Proof. reflexivity. Qed.

Lemma replace_from_keeps_suffix new suf :
  no_slash suf = true ->
  forall n t skip,
    (String.length t <= n)%nat ->
    (skip <= String.length t)%nat ->
    replace_from "raw/" new skip (t +:+ suf) = replace_from "raw/" new skip t +:+ suf.
Proof.
  intros Hs. induction n as [|n IH]; intros t skip Hn Hskip.
  - destruct t; [|cbn in Hn; lia]. cbn in Hskip. assert (skip = 0%nat) as -> by lia.
    rewrite string_app_nil. change (replace_from "raw/" new 0 suf) with (replace "raw/" new suf).
    by rewrite replace_no_slash.
  - destruct t as [|c t].
    { cbn in Hskip. assert (skip = 0%nat) as -> by lia.
      rewrite string_app_nil.
      change (replace_from "raw/" new 0 suf) with (replace "raw/" new suf).
      by rewrite replace_no_slash. }
    cbn [String.length] in Hn, Hskip. rewrite string_app_cons.
    destruct skip as [|skip].
    + change (replace_from "raw/" new 0 (String c (t +:+ suf))) with
        (replace "raw/" new (String c (t +:+ suf))).
      change (replace_from "raw/" new 0 (String c t)) with
        (replace "raw/" new (String c t)).
      rewrite !replace_step.
      destruct (startswith "raw/" (String c (t +:+ suf))) eqn:Hst.
      * rewrite <- string_app_cons in Hst.
        destruct (raw_occurrence_inside (String c t) suf Hs Hst) as [t' Ht'].
        injection Ht' as -> ->.
        replace (startswith "raw/" (String "r" ("aw/" +:+ t'))) with true by reflexivity.
        rewrite (string_app_assoc new). f_equal.
        change (String.length "raw/" - 1)%nat with 3%nat.
        change ("aw/" +:+ t') with (String "a" (String "w" (String "/" t'))) in *.
        rewrite !string_app_cons, !replace_from_skip.
        apply IH; cbn in *; lia.
      * destruct (startswith "raw/" (String c t)) eqn:Hst'.
        { apply (startswith_app_l _ _ suf) in Hst'. rewrite string_app_cons in Hst'.
          congruence. }
        rewrite string_app_cons. f_equal. apply IH; lia.
    + rewrite !replace_from_skip. apply IH; lia.
Qed.

Lemma endswith_cons suf c s :
  endswith suf (String c s) = String.eqb (String c s) suf || endswith suf s.
Proof. reflexivity. Qed.

Lemma endswith_app suf t : endswith suf (t +:+ suf) = true.
Proof.
  induction t as [|c t IH].
  - rewrite string_app_nil. destruct suf as [|a suf]; [done|].
    by rewrite endswith_cons, String.eqb_refl.
  - rewrite string_app_cons, endswith_cons, IH. apply orb_true_r.
Qed.

Lemma endswith_split suf s : endswith suf s = true -> exists t, s = t +:+ suf.
Proof.
  induction s as [|c s IH].
  - unfold endswith. rewrite orb_false_r. intros H%String.eqb_eq. exists "". by subst.
  - rewrite endswith_cons. intros [H%String.eqb_eq | H]%orb_true_iff.
    + exists "". by subst.
    + destruct (IH H) as [t ->]. by exists (String c t).
Qed.

(** Routing keeps a suffix that has no slash. *)
Lemma routed_key_suffix new suf k :
  no_slash suf = true ->
  endswith suf k = true ->
  endswith suf (replace "raw/" new k) = true.
Proof.
  intros Hs [t ->]%endswith_split. unfold replace.
  rewrite (replace_from_keeps_suffix new suf Hs (String.length t)); [|lia|lia].
  apply endswith_app.
Qed.

End SuffixFacts.

(** ** Listing a prefix *)




Section Listing.

Variable float_of_str : string -> option float.




End Listing.

(** ** Re-validating what was written *)



Section WrittenAgain.
Import PyStr.

Variable float_of_str : string -> option float.


Lemma subtree_unfold e : subtree e = e :: flat_map subtree (children_of e).
Proof.
  by destruct e as [t x cs].
Qed.










End WrittenAgain.

(** ** The current file in the rescan *)

Section CurrentFile.

Variable float_of_str : string -> option float.


End CurrentFile.




(** The totals of that invocation: one accepted and one rejected record in
    the file, counted twice, and one accepted record from the earlier file. *)
Example mixed_file_totals :
  let w' := fst (lambda_handler (fun _ => None)
                   [S3Record "raw/customer_purchases/mixed.json"] corpus_with_mixed_file) in
  rescan (fun _ => None) fst (s3 w') (list_objects_v2 (s3 w') "validated/") 1 = Ret 3%nat /\
  rescan (fun _ => None) snd (s3 w') (list_objects_v2 (s3 w') "error/") 1 = Ret 2%nat /\
  glue_runs w' = [JobArguments (dq_score 3 2) 2].
Proof. vm_compute. done. Qed.

(** * Further properties

    The behaviour of the validators, of the handler and of the job at the
    edges of their inputs, and the way their steps compose. *)

(** ** Customers in document order *)

(** Induction on an element with its children. *)
Lemma element_induction (P : element -> Prop) :
  (forall t x cs, Forall P cs -> P (Element t x cs)) -> forall e, P e.
Proof.
  intros H. fix IH 1. intros [t x cs]. apply H.
  induction cs as [|c cs IHcs]; constructor; [apply IH|exact IHcs].
Qed.

Lemma subtree_tail e : tail (subtree e) = flat_map subtree (children_of e).
Proof. by rewrite subtree_unfold. Qed.

Lemma flat_map_length_elem {A B} (f : A -> list B) (l : list A) (x : A) :
  x ∈ l -> (length (f x) <= length (flat_map f l))%nat.
Proof.
  induction l as [|y l IH]; intros Hin; [by apply elem_of_nil in Hin|].
  cbn. rewrite length_app. apply elem_of_cons in Hin as [->|Hin]; [lia|].
  specialize (IH Hin). lia.
Qed.

(** A proper descendant spans fewer elements than the element itself. *)
Lemma subtree_smaller e :
  forall d, d ∈ tail (subtree e) -> (length (subtree d) < length (subtree e))%nat.
Proof.
  induction e as [t x cs IH] using element_induction. intros d.
  rewrite subtree_tail, (subtree_unfold (Element t x cs)). cbn [children_of length].
  intros Hd. apply list_elem_of_In, in_flat_map in Hd as (c & Hc & Hd).
  apply list_elem_of_In in Hc, Hd.
  pose proof (flat_map_length_elem subtree cs c Hc) as Hlen.
  rewrite subtree_unfold in Hd. apply elem_of_cons in Hd as [->|Hd]; [lia|].
  rewrite <- subtree_tail in Hd.
  rewrite Forall_forall in IH. specialize (IH c Hc d Hd). lia.
Qed.

(** A descendant of a descendant is a descendant. *)
Lemma subtree_nested e d :
  d ∈ tail (subtree e) -> forall d', d' ∈ tail (subtree d) -> d' ∈ tail (subtree e).
Proof.
  induction e as [t x cs IH] using element_induction. intros Hd d' Hd'.
  rewrite subtree_tail in Hd. rewrite subtree_tail. cbn [children_of] in *.
  apply list_elem_of_In, in_flat_map in Hd as (c & Hc & Hd).
  apply list_elem_of_In in Hc, Hd.
  apply list_elem_of_In, in_flat_map. exists c. split; [by apply list_elem_of_In|].
  apply list_elem_of_In.
  rewrite subtree_unfold in Hd. apply elem_of_cons in Hd as [->|Hd].
  - rewrite subtree_unfold. apply list_elem_of_further. by rewrite <- subtree_tail.
  - rewrite Forall_forall in IH. rewrite <- subtree_tail in Hd.
    specialize (IH c Hc Hd d' Hd').
    rewrite subtree_unfold. apply list_elem_of_further. by rewrite <- subtree_tail.
Qed.

(** X1: [process_xml_records] returns the customers of the document in
    document order, each as often as it occurs: the two lists are what is
    left of the list of [Customer] descendants when the rejected, respectively
    the accepted, are taken out.  A child of the root tagged [Customer] is a
    customer, so is a customer nested in a customer, and the root itself never
    is. *)
Theorem xml_customers_in_document_order (root : element) :
  let customers := findall_descendants "Customer" root in
  process_xml_records (XmlDoc root) =
    Ret (filter (fun c => customer_invalid c = false) customers,
         filter (fun c => customer_invalid c = true) customers) /\
  (forall valid invalid,
     process_xml_records (XmlDoc root) = Ret (valid, invalid) ->
     (length valid + length invalid = length customers)%nat /\
     (root ∉ valid) /\ (root ∉ invalid)) /\
  (forall c, c ∈ children_of root -> tag_of c = "Customer" -> c ∈ customers) /\
  (forall c c', c ∈ customers -> c' ∈ findall_descendants "Customer" c -> c' ∈ customers).
Proof.
  intros customers.
  assert (Hrun : process_xml_records (XmlDoc root) =
    Ret (filter (fun c => customer_invalid c = false) customers,
         filter (fun c => customer_invalid c = true) customers)).
  { unfold process_xml_records. cbn. by rewrite route_partition. }
  assert (Hroot : root ∉ customers).
  { intros [_ Hin]%list_elem_of_filter. apply subtree_smaller in Hin. lia. }
  split; [exact Hrun|]. split; [|split].
  - intros valid invalid. rewrite Hrun. intros [= <- <-]. split; [|split].
    + clear. induction customers as [|c l IH]; [done|].
      rewrite !filter_cons. destruct (customer_invalid c); cbn.
      * rewrite decide_False by done. rewrite decide_True by done. cbn. lia.
      * rewrite decide_True by done. rewrite decide_False by done. cbn. lia.
    + intros [_ H]%list_elem_of_filter. done.
    + intros [_ H]%list_elem_of_filter. done.
  - intros c Hc Ht. apply list_elem_of_filter. split; [done|].
    rewrite subtree_tail. apply list_elem_of_In, in_flat_map. exists c.
    split; [by apply list_elem_of_In|]. apply list_elem_of_In.
    rewrite subtree_unfold. apply list_elem_of_here.
  - intros c c' [Ht Hc]%list_elem_of_filter [Ht' Hc']%list_elem_of_filter.
    apply list_elem_of_filter. split; [done|]. by eapply subtree_nested.
Qed.

(** ** Round trip through [build_xml] *)




(** ** Purchases outside an array, and the feedback loop *)

Section PurchaseShapes.

Variable float_of_str : string -> option float.

(** A record that is a string is rejected: the key is not a substring of
    it, or the subscript raises. *)
Lemma string_record_rejected (s : string) :
  purchase_invalid float_of_str (PStr s) = true.
Proof.
  unfold purchase_invalid, purchase_condition, py_or, py_not_in, py_in. cbn.
  by destruct (PyStr.contains "CustomerID" s).
Qed.

Lemma all_rejected (recs : list pyval) :
  Forall (fun r => purchase_invalid float_of_str r = true) recs ->
  fold_left (route (purchase_invalid float_of_str)) recs ([], []) = ([], recs).
Proof.
  intros Hall. rewrite route_partition. f_equal.
  - induction Hall as [|r recs Hr _ IH]; [done|].
    rewrite filter_cons_False; [done|]. by rewrite Hr.
  - induction Hall as [|r recs Hr _ IH]; [done|].
    rewrite filter_cons_True by done. by rewrite IH.
Qed.

(** An accepted record is an object that holds the four keys. *)
Lemma accepted_record_keys (rec : pyval) :
  purchase_invalid float_of_str rec = false ->
  exists d, rec = PDict d /\
    forall k, k ∈ ["CustomerID"; "Amount"; "Product"; "Date"] -> is_Some (assoc k d).
Proof.
  unfold purchase_invalid, purchase_condition.
  destruct rec as [| b | n | f | s | l | d]; try (cbn; done).
  - intros H. exfalso. revert H. cbn. by destruct (PyStr.contains "CustomerID" s).
  - intros H. exfalso. revert H. cbn. by destruct (existsb (is_str "CustomerID") l).
  - intros H. exists d. split; [done|]. revert H.
    unfold py_or, py_not_in, py_in, py_getitem, py_bind.
    destruct (assoc "CustomerID" d) as [cid|] eqn:Hcid; cycle 1.
    { rewrite bool_decide_eq_false_2 by (by intros [? ?]). done. }
    rewrite bool_decide_eq_true_2 by eauto. cbn.
    destruct (str_isdigit cid); cbn; [|done].
    destruct (assoc "Amount" d) as [amount|] eqn:Ham; cycle 1.
    { rewrite bool_decide_eq_false_2 by (by intros [? ?]). done. }
    rewrite bool_decide_eq_true_2 by eauto. cbn.
    destruct (py_float float_of_str amount) as [f|e]; [|done].
    destruct (PrimFloat.leb f 0); cbn; [done|].
    destruct (assoc "Product" d) as [product|] eqn:Hp; cycle 1.
    { rewrite bool_decide_eq_false_2 by (by intros [? ?]). done. }
    rewrite bool_decide_eq_true_2 by eauto. cbn.
    destruct (py_strip product) as [s|e]; [|done]. cbn.
    destruct (String.eqb s ""); cbn; [done|].
    destruct (assoc "Date" d) as [date|] eqn:Hdt; cycle 1.
    { rewrite bool_decide_eq_false_2 by (by intros [? ?]). done. }
    intros _ k Hk. repeat (apply elem_of_cons in Hk as [->|Hk]; [eauto|]).
    by apply elem_of_nil in Hk.
Qed.

End PurchaseShapes.

(** X3: only the elements of a top-level array can be accepted.  A document
    that is a single object has its key names rejected, one that is a string
    its characters; a number, a boolean or null makes the validator raise
    TypeError.  Inside an array,
    an element that is not an object holding the four keys is rejected. *)
Theorem purchases_outside_an_array float_of_str :
  (forall d,
     process_json_records float_of_str (JsonDoc (PDict d))
     = Ret ([], map (fun kv => PStr kv.1) d)) /\
  (forall s,
     process_json_records float_of_str (JsonDoc (PStr s))
     = Ret ([], map (fun c => PStr (String c "")) (list_ascii_of_string s))) /\
  (forall v,
     v ∈ [PNone] \/ (exists b, v = PBool b) \/ (exists n, v = PInt n) \/
     (exists f, v = PFloat f) ->
     process_json_records float_of_str (JsonDoc v) = Raise TypeError) /\
  (forall recs valid invalid rec,
     process_json_records float_of_str (JsonDoc (PList recs)) = Ret (valid, invalid) ->
     rec ∈ valid ->
     exists d, rec = PDict d /\
       forall k, k ∈ ["CustomerID"; "Amount"; "Product"; "Date"] -> is_Some (assoc k d)).
Proof.
  split; [|split; [|split]].
  - intros d. unfold process_json_records. cbn. f_equal. apply all_rejected.
    apply Forall_forall. intros r (kv & -> & _)%list_elem_of_fmap.
    apply string_record_rejected.
  - intros s. unfold process_json_records. cbn. f_equal. apply all_rejected.
    apply Forall_forall. intros r (c & -> & _)%list_elem_of_fmap.
    apply string_record_rejected.
  - intros v [Hv | [[b ->] | [[n ->] | [f ->]]]]; [|done..].
    apply list_elem_of_singleton in Hv as ->. done.
  - intros recs valid invalid rec. rewrite process_json_records_total.
    intros [= <- <-] [Hacc _]%list_elem_of_filter.
    by apply accepted_record_keys in Hacc.
Qed.


(** ** The texts [is_valid_date] accepts *)

Section DateTexts.
Import PyStr Strptime.
Local Open Scope Z_scope.



















End DateTexts.


(** ** Files that are not routed *)



(** X7: a file that does not parse is not reported.  For a key ending in
    [.xml] and a body that is a JSON document or no document at all the
    invocation raises ParseError; for a key ending in [.json] and a body that
    is an XML document or no document at all it raises JSONDecodeError, and
    TypeError when the body is the JSON document of a number, a boolean or
    null: nothing is written, no metric is published and no job is started,
    whereas an object that cannot be read is answered with a status and a
    metric. *)
Theorem malformed_upload_raises float_of_str (k : string) (content : body) (w : world) :
  s3 w !! k = Some content ->
  (PyStr.endswith ".xml" k = true ->
   (exists v, content = JsonDoc v) \/ (exists text, content = Blob text) ->
   lambda_handler float_of_str [S3Record k] w = (w, Raise ParseError)) /\
  (PyStr.endswith ".xml" k = false -> PyStr.endswith ".json" k = true ->
   (exists root, content = XmlDoc root) \/ (exists text, content = Blob text) ->
   lambda_handler float_of_str [S3Record k] w = (w, Raise JSONDecodeError)) /\
  (PyStr.endswith ".xml" k = false -> PyStr.endswith ".json" k = true ->
   forall v, content = JsonDoc v ->
     v = PNone \/ (exists b, v = PBool b) \/ (exists n, v = PInt n) \/
     (exists f, v = PFloat f) ->
     lambda_handler float_of_str [S3Record k] w = (w, Raise TypeError)) /\
  (forall k', s3 w !! k' = None ->
     lambda_handler float_of_str [S3Record k'] w =
     (World (s3 w) (glue_runs w) (S (cw_failures w)), Ret "Failed to read file")).
Proof.
  intros Hk. split; [|split; [|split]].
  - intros Hx Hc. rewrite (lambda_handler_spec _ (S3Record k) [] w content Hk). cbn [key].
    unfold file_partitions. rewrite Hx. by destruct Hc as [[v ->] | [text ->]].
  - intros Hx Hj Hc. rewrite (lambda_handler_spec _ (S3Record k) [] w content Hk).
    cbn [key]. unfold file_partitions. rewrite Hx, Hj.
    by destruct Hc as [[root ->] | [text ->]].
  - intros Hx Hj v -> Hv. rewrite (lambda_handler_spec _ (S3Record k) [] w _ Hk).
    cbn [key]. unfold file_partitions. rewrite Hx, Hj.
    by destruct Hv as [-> | [[b ->] | [[n ->] | [f ->]]]].
  - intros k' Hk'. by apply (lambda_handler_missing float_of_str (S3Record k') [] w).
Qed.

Lemma malformed_upload_raises_witness :
  let w := World {["raw/customer_details/c.xml" := Blob "<Customers>"]} [] 0 in
  lambda_handler (fun _ => None) [S3Record "raw/customer_details/c.xml"] w
  = (w, Raise ParseError).
Proof.
  intros w.
  apply (malformed_upload_raises (fun _ => None) "raw/customer_details/c.xml"
           (Blob "<Customers>") w); [vm_compute; reflexivity|vm_compute; reflexivity|].
  right. by exists "<Customers>".
Defined.

(** X8: whitespace around a CustomerID is accepted in a customer file and
    nowhere else.  The customer rule strips the text before it tests for
    digits, the purchase rule and the feedback rule test it as it is: an
    identifier that is a run of digits only once stripped passes in a
    customer with a Name and a City, and rejects every purchase and every
    feedback row that carries it. *)
Theorem padded_identifier float_of_str (cid : string) :
  PyStr.isdigit cid = false ->
  PyStr.isdigit (PyStr.strip cid) = true ->
  (forall name city,
     ~ only_whitespace name -> ~ only_whitespace city ->
     customer_invalid (customer cid name city) = false) /\
  (forall d, assoc "CustomerID" d = Some (PStr cid) ->
             purchase_invalid float_of_str (PDict d) = true) /\
  (forall row, assoc "CustomerID" row = Some (Some cid) ->
               feedback_invalid row = true).
Proof.
  intros Hraw Hstripped. split; [|split].
  - intros name city Hn Hc. unfold customer_invalid, customer, find. cbn.
    unfold no_text, stripped_text. cbn.
    assert (Hne : forall s, ~ only_whitespace s ->
              PyStr.is_empty s = false /\ String.eqb (PyStr.strip s) "" = false).
    { intros s Hs. rewrite strip_eqb_empty.
      destruct (PyStr.all_chars PyStr.is_space s) eqn:Hw.
      - destruct Hs. by apply all_chars_Forall.
      - split; [|done]. by destruct s. }
    fold (PyStr.strip cid) (PyStr.strip name) (PyStr.strip city).
    destruct (Hne name Hn) as [-> ->], (Hne city Hc) as [-> ->].
    rewrite Hstripped. by destruct cid.
  - intros d Hd. unfold purchase_invalid, purchase_condition, py_or, py_not_in,
      py_in, py_getitem, py_bind.
    rewrite Hd. rewrite bool_decide_eq_true_2 by eauto. cbn. by rewrite Hraw.
  - intros row Hr. unfold feedback_invalid, feedback_condition, py_or, row_getitem,
      as_str, py_bind.
    rewrite Hr. cbn. by rewrite Hraw.
Qed.

Lemma padded_identifier_witness :
  customer_invalid (customer " 12 " "Ann" "Oslo") = false /\
  feedback_invalid (feedback_row " 12 " "5" "good") = true.
Proof.
  destruct (padded_identifier (fun _ => None) " 12 " eq_refl eq_refl) as (Hc & _ & Hf).
  split.
  - apply Hc; intros H; apply all_chars_Forall in H; discriminate H.
  - by apply Hf.
Defined.



(** ** Events *)

Section EventFacts.

Variable float_of_str : string -> option float.

(** X10: an event without a first record (not an object, no [Records], or an
    empty list of records) is answered with the status No Records and one
    failure metric, the bucket and the job untouched.  A first record that
    does not hold [s3] raises KeyError, one that is not an object TypeError:
    these are not caught, and no metric is published.  Of an event with
    several records only the first is processed. *)
Theorem event_shapes (w : world) :
  (forall event,
     (forall d, event <> PDict d) \/
     (exists d, event = PDict d /\
        (assoc "Records" d = None \/ assoc "Records" d = Some (PList []))) ->
     lambda_handler_event float_of_str event w =
     (World (s3 w) (glue_runs w) (S (cw_failures w)), Ret "No Records")) /\
  (forall d fields rest,
     assoc "Records" d = Some (PList (PDict fields :: rest)) ->
     assoc "s3" fields = None ->
     lambda_handler_event float_of_str (PDict d) w = (w, Raise KeyError)) /\
  (forall d record rest,
     assoc "Records" d = Some (PList (record :: rest)) ->
     (forall fields, record <> PDict fields) ->
     lambda_handler_event float_of_str (PDict d) w = (w, Raise TypeError)) /\
  (forall bucket k keys,
     lambda_handler_event float_of_str (s3_event bucket (k :: keys)) w =
     lambda_handler float_of_str [S3Record k] w).
Proof.
  split; [|split; [|split]].
  - intros event [Hnd | (d & -> & [Hr | Hr])].
    + destruct event; try done. by destruct (Hnd d).
    + unfold lambda_handler_event, first_record. cbn. by rewrite Hr.
    + unfold lambda_handler_event, first_record. cbn. by rewrite Hr.
  - intros d fields rest Hr Hs.
    unfold lambda_handler_event, first_record. cbn. rewrite Hr. cbn.
    unfold act_bind, lift, s3_field. cbn. by rewrite Hs.
  - intros d record rest Hr Hnd.
    unfold lambda_handler_event, first_record. cbn. rewrite Hr. cbn.
    unfold act_bind, lift, s3_field.
    destruct record; try done. by destruct (Hnd d0).
  - intros bucket k keys. reflexivity.
Qed.

End EventFacts.

(** ** The effects of an invocation *)

Section Invocation.

Variable float_of_str : string -> option float.



End Invocation.


(** X12: an invocation that reads its file and completes publishes the failure
    metric iff the rejected records of the file plus those re-validated from
    every object under error/ are more than zero: a file without a rejected
    record is reported as a failure when the prefix holds rejected records
    of earlier files. *)
Theorem failure_metric_follows_corpus float_of_str (record : s3_record)
    (rest : list s3_record) (w w' : world) (content : body) (st : string) :
  s3 w !! key record = Some content ->
  lambda_handler float_of_str (record :: rest) w = (w', Ret st) ->
  exists ps accepted rejected,
    file_partitions float_of_str (key record) content = Ret (ps, (accepted, rejected)) /\
    let corpus :=
      sum_list (map (contribution float_of_str snd (s3 w'))
                    (list_objects_v2 (s3 w') "error/")) in
    ((0 < rejected + corpus)%nat -> cw_failures w' = S (cw_failures w)) /\
    ((rejected + corpus = 0)%nat -> cw_failures w' = cw_failures w).
Proof.
  intros Hk. rewrite (lambda_handler_spec _ _ _ _ _ Hk).
  destruct (file_partitions float_of_str (key record) content)
    as [[ps [nv ni]]|e0] eqn:Hf; [|done].
  unfold after_rescans.
  destruct (rescan float_of_str fst _ _ nv) as [tv|e1] eqn:Hv; [|done].
  destruct (rescan float_of_str snd _ _ ni) as [ti|e2] eqn:Hi; [|done].
  intros [= <- _]. exists ps, nv, ni. split; [done|]. cbn [s3 cw_failures].
  apply rescan_total in Hi. rewrite <- Hi.
  destruct (0 <? ti)%nat eqn:Ht.
  - apply Nat.ltb_lt in Ht. split; [done|lia].
  - apply Nat.ltb_ge in Ht. split; [lia|done].
Qed.

Lemma failure_metric_follows_corpus_witness :
  exists ps accepted rejected,
    file_partitions (fun _ => None) "raw/customer_purchases/clean.json" old_purchases
    = Ret (ps, (accepted, rejected)).
Proof.
  pose (out := lambda_handler (fun _ => None)
                 [S3Record "raw/customer_purchases/clean.json"] corpus_with_rejections).
  assert (Hk : s3 corpus_with_rejections !! key (S3Record "raw/customer_purchases/clean.json")
               = Some old_purchases) by (vm_compute; reflexivity).
  assert (Hr : out = (fst out, Ret "Record-level processing complete")).
  { rewrite (surjective_pairing out) at 1. f_equal; vm_compute; reflexivity. }
  destruct (failure_metric_follows_corpus (fun _ => None)
              (S3Record "raw/customer_purchases/clean.json") []
              corpus_with_rejections (fst out) old_purchases
              "Record-level processing complete" Hk Hr)
    as (ps & accepted & rejected & Hf & _).
  exists ps, accepted, rejected. exact Hf.
Defined.

(** The invocation of that scenario: the file has no rejected record, the
    prefix holds one, and the metric is published. *)
Example clean_file_reported :
  process_json_records (fun _ => None) old_purchases
    = Ret ([purchase "7" (PInt 5) "X" "2024-01-01"], []) /\
  cw_failures (fst (lambda_handler (fun _ => None)
                      [S3Record "raw/customer_purchases/clean.json"]
                      corpus_with_rejections)) = 1%nat.
Proof. vm_compute. done. Qed.

(** X13: when a completed invocation starts the job, the ERROR_COUNT it passes
    is total_invalid, the rejected records of the file plus those
    re-validated under error/, and the DQ_SCORE is the score of that total and
    of total_valid, the accepted records of the file plus those re-validated
    under validated/; it is the float of the first branch of [dq_score], never
    the integer 0 of the other. *)
Theorem job_arguments_from_totals float_of_str (record : s3_record)
    (rest : list s3_record) (w w' : world) (content : body) (st : string)
    (args : job_arguments) :
  s3 w !! key record = Some content ->
  lambda_handler float_of_str (record :: rest) w = (w', Ret st) ->
  glue_runs w' = glue_runs w ++ [args] ->
  exists ps accepted rejected,
    file_partitions float_of_str (key record) content = Ret (ps, (accepted, rejected)) /\
    let total_valid :=
      (accepted + sum_list (map (contribution float_of_str fst (s3 w'))
                                (list_objects_v2 (s3 w') "validated/")))%nat in
    let total_invalid :=
      (rejected + sum_list (map (contribution float_of_str snd (s3 w'))
                                (list_objects_v2 (s3 w') "error/")))%nat in
    (0 < total_valid)%nat /\
    ERROR_COUNT args = total_invalid /\
    DQ_SCORE args = dq_score total_valid total_invalid /\
    exists f, DQ_SCORE args = ScoreFloat f.
Proof.
  intros Hk. rewrite (lambda_handler_spec _ _ _ _ _ Hk).
  destruct (file_partitions float_of_str (key record) content)
    as [[ps [nv ni]]|e0] eqn:Hf; [|done].
  unfold after_rescans.
  destruct (rescan float_of_str fst _ _ nv) as [tv|e1] eqn:Hv; [|done].
  destruct (rescan float_of_str snd _ _ ni) as [ti|e2] eqn:Hi; [|done].
  intros [= <- _]. cbn [s3 glue_runs]. intros Hruns.
  apply app_inv_head in Hruns.
  exists ps, nv, ni. split; [done|].
  apply rescan_total in Hv, Hi. rewrite <- Hv, <- Hi.
  destruct (0 <? tv)%nat eqn:Ht; [|done]. injection Hruns as <-.
  apply Nat.ltb_lt in Ht. cbn [ERROR_COUNT DQ_SCORE].
  split; [done|]. split; [done|]. split; [done|].
  unfold dq_score. replace (0 <? tv + ti)%nat with true; [by eexists|].
  symmetry. apply Nat.ltb_lt. lia.
Qed.

Lemma job_arguments_from_totals_witness :
  exists f, DQ_SCORE (JobArguments (dq_score 1 2) 2) = ScoreFloat f.
Proof.
  pose (out := lambda_handler (fun _ => None)
                 [S3Record "raw/customer_purchases/new.json"] corpus_with_history).
  assert (Hk : s3 corpus_with_history !! key (S3Record "raw/customer_purchases/new.json")
               = Some new_purchases) by (vm_compute; reflexivity).
  assert (Hr : out = (fst out, Ret "Record-level processing complete")).
  { rewrite (surjective_pairing out) at 1. f_equal; vm_compute; reflexivity. }
  assert (Hruns : glue_runs (fst out) =
                  glue_runs corpus_with_history ++ [JobArguments (dq_score 1 2) 2])
    by (vm_compute; reflexivity).
  destruct (job_arguments_from_totals (fun _ => None)
              (S3Record "raw/customer_purchases/new.json") []
              corpus_with_history (fst out) new_purchases
              "Record-level processing complete" _ Hk Hr Hruns)
    as (ps & accepted & rejected & _ & _ & _ & _ & Hfloat).
  exact Hfloat.
Defined.

Section SourceKey.

Variable float_of_str : string -> option float.

Lemma key_without_raw k :
  PyStr.contains "raw/" k = false -> validated_key k = k /\ error_key k = k.
Proof. apply contains_no_occurrence. Qed.

Lemma puts_same_key {A} (serialize : list A -> body) k valid invalid
    (store : gmap string body) content :
  validated_key k = k -> error_key k = k -> store !! k = Some content ->
  apply_puts (puts serialize k valid invalid) store !! k =
  Some (if nonempty invalid then serialize invalid
        else if nonempty valid then serialize valid else content).
Proof.
  intros Hv He Hk. unfold puts, apply_puts. rewrite Hv, He.
  destruct valid, invalid; cbn; by rewrite ?lookup_insert_eq.
Qed.

End SourceKey.

(** X14: the partitions are written at the key of the file with every [raw/]
    replaced, so for a key that does not hold [raw/] both partitions are
    written at the key of the file itself: the uploaded object is replaced by
    its rejected records, or by its accepted records when none is rejected,
    and is left as it was only when the file has no record; no other object
    changes. *)
Theorem key_without_raw_overwrites_source float_of_str (k : string) (w : world)
    (content : body) :
  PyStr.contains "raw/" k = false ->
  s3 w !! k = Some content ->
  let w' := fst (lambda_handler float_of_str [S3Record k] w) in
  validated_key k = k /\ error_key k = k /\
  (forall k', k' <> k -> s3 w' !! k' = s3 w !! k') /\
  (forall valid invalid,
     PyStr.endswith ".xml" k = true ->
     process_xml_records content = Ret (valid, invalid) ->
     s3 w' !! k = Some (if nonempty invalid then build_xml invalid
                        else if nonempty valid then build_xml valid else content)) /\
  (forall valid invalid,
     PyStr.endswith ".xml" k = false -> PyStr.endswith ".json" k = true ->
     process_json_records float_of_str content = Ret (valid, invalid) ->
     s3 w' !! k = Some (if nonempty invalid then JsonDoc (PList invalid)
                        else if nonempty valid then JsonDoc (PList valid) else content)).
Proof.
  intros Hraw Hk w'. destruct (key_without_raw k Hraw) as [Hv He].
  split; [done|]. split; [done|].
  assert (Hs : s3 w' = match file_partitions float_of_str k content with
                       | Ret (ps, _) => apply_puts ps (s3 w)
                       | Raise _ => s3 w
                       end).
  { unfold w'. by rewrite lambda_handler_store, Hk. }
  split; [|split].
  - intros k' Hne. rewrite Hs.
    destruct (file_partitions float_of_str k content) as [[ps [nv ni]]|e] eqn:Hf; [|done].
    apply apply_puts_other. intros kb Hin.
    destruct (file_partitions_keys _ _ _ _ _ _ _ Hf Hin) as [[-> _]|[-> _]]; congruence.
  - intros valid invalid Hx Hp. rewrite Hs. unfold file_partitions. rewrite Hx, Hp.
    cbn. by apply puts_same_key.
  - intros valid invalid Hx Hj Hp. rewrite Hs. unfold file_partitions. rewrite Hx, Hj, Hp.
    cbn. by apply (puts_same_key (fun l => JsonDoc (PList l))).
Qed.

Lemma key_without_raw_overwrites_source_witness :
  let w := World {["uploads/p.json" := mixed_purchases]} [] 0 in
  s3 (fst (lambda_handler (fun _ => None) [S3Record "uploads/p.json"] w)) !! "uploads/p.json"
  = Some (JsonDoc (PList [purchase "8" (PInt (-5)) "Y" "2024-01-02"])).
Proof.
  intros w.
  assert (Hk : s3 w !! "uploads/p.json" = Some mixed_purchases)
    by (vm_compute; reflexivity).
  destruct (key_without_raw_overwrites_source (fun _ => None) "uploads/p.json" w
              mixed_purchases eq_refl Hk) as (_ & _ & _ & _ & Hj).
  apply (Hj [purchase "7" (PInt 5) "X" "2024-01-01"]
            [purchase "8" (PInt (-5)) "Y" "2024-01-02"]); vm_compute; reflexivity.
Defined.

(** X15: the keys of the partitions.  A key that holds [raw/] gives two
    keys that differ from it and from each other; a key that does not hold it
    gives the key itself twice.  Every occurrence is replaced, so a key under
    raw/ gives a key under validated/ and a key under error/; and the keys
    end in [.xml], [.json] or [.csv] when the key of the file does, which is
    what the rescans go by. *)
Theorem partition_keys (k : string) :
  (PyStr.contains "raw/" k = true ->
   validated_key k <> k /\ error_key k <> k /\ validated_key k <> error_key k) /\
  (PyStr.contains "raw/" k = false -> validated_key k = k /\ error_key k = k) /\
  (forall rest, k = "raw/" +:+ rest ->
     validated_key k = "validated/" +:+ validated_key rest /\
     error_key k = "error/" +:+ error_key rest) /\
  (forall suf, suf ∈ [".xml"; ".json"; ".csv"] -> PyStr.endswith suf k = true ->
     PyStr.endswith suf (validated_key k) = true /\
     PyStr.endswith suf (error_key k) = true).
Proof.
  split; [|split; [|split]].
  - intros Hraw. split; [by apply validated_key_fresh|].
    split; [by apply error_key_fresh|by apply validated_key_not_error].
  - apply key_without_raw.
  - intros rest ->. split; reflexivity.
  - intros suf Hsuf Hk. unfold validated_key, error_key.
    repeat (apply elem_of_cons in Hsuf as [->|Hsuf]);
      [..|by apply elem_of_nil in Hsuf];
      (split; (apply routed_key_suffix; [reflexivity|exact Hk])).
Qed.

Section FeedbackObjects.

Variable float_of_str : string -> option float.



End FeedbackObjects.



(** ** The range of the quality score *)

Lemma scores_in_range_200 : scores_in_range_upto 200 = true.
Proof. vm_compute. reflexivity. Qed.

Lemma scores_in_range_upto_spec (total accepted rejected : nat) :
  scores_in_range_upto total = true ->
  (0 < accepted + rejected <= total)%nat -> score_in_range accepted rejected = true.
Proof.
  unfold scores_in_range_upto. intros Hall H.
  rewrite forallb_forall in Hall.
  specialize (Hall (accepted + rejected)%nat).
  rewrite forallb_forall in Hall.
  assert (Hn : In (accepted + rejected)%nat (seq 1 total)) by (apply in_seq; lia).
  specialize (Hall Hn accepted).
  replace (accepted + rejected - accepted)%nat with rejected in Hall by lia.
  apply Hall. apply in_seq. lia.
Qed.

(** X17: for one to 200 records the score is a float between 0.0 and 100.0;
    it is exactly 100.0 iff no record is rejected and exactly 0.0 iff none is
    accepted. *)
Theorem quality_score_range (accepted rejected : nat) :
  (0 < accepted + rejected <= 200)%nat ->
  exists f,
    dq_score accepted rejected = ScoreFloat f /\
    PrimFloat.leb 0 f = true /\ PrimFloat.leb f 100 = true /\
    (PrimFloat.eqb f 100 = true <-> rejected = 0%nat) /\
    (PrimFloat.eqb f 0 = true <-> accepted = 0%nat).
Proof.
  intros H. pose proof (scores_in_range_upto_spec 200 accepted rejected
                          scores_in_range_200 H) as Hr.
  unfold score_in_range in Hr. destruct (dq_score accepted rejected) as [n|f]; [done|].
  exists f. split; [done|].
  apply andb_true_iff in Hr as [Hr H0]. apply andb_true_iff in Hr as [Hr H100].
  apply andb_true_iff in Hr as [Hlo Hhi]. apply Bool.eqb_prop in H0, H100.
  split; [done|]. split; [done|]. rewrite H0, H100. split; apply Nat.eqb_eq.
Qed.

Lemma quality_score_range_witness :
  (0 < 18 + 2 <= 200)%nat /\ exists f, dq_score 18 2 = ScoreFloat f.
Proof.
  split; [lia|].
  destruct (quality_score_range 18 2 ltac:(lia)) as (f & Hf & _). by exists f.
Defined.

(** ** The error count, from the stage to the job *)

Section Numerals.
Import PyStr.


Lemma digits_not_stripped s :
  all_chars is_digit s = true -> strip s = s.
Proof.
  intros Hs. unfold strip.
  assert (Hl : lstrip s = s).
  { destruct s as [|c s]; [done|]. cbn in *. apply andb_true_iff in Hs as [Hc _].
    replace (is_space c) with false; [done|].
    by destruct c as [[] [] [] [] [] [] [] []]. }
  rewrite Hl. clear Hl. induction s as [|c s IH]; [done|].
  cbn in *. apply andb_true_iff in Hs as [Hc Hs]. rewrite (IH Hs).
  replace (is_space c) with false; [done|].
  by destruct c as [[] [] [] [] [] [] [] []].
Qed.

Lemma uint_digits (u : Decimal.uint) :
  all_chars is_digit (NilEmpty.string_of_uint u) = true.
Proof. induction u; cbn; done. Qed.

Local Ltac next_digit IH :=
  cbn [NilEmpty.string_of_uint int_digits Nat.of_uint_acc];
  match goal with |- context [is_digit ?c] => change (is_digit c) with true end;
  cbv iota;
  match goal with
  | |- context [digit_val ?c] =>
      let v := eval vm_compute in (digit_val c) in change (digit_val c) with v
  end;
  match goal with
  | |- int_digits ?a true _ = Some (Z.of_nat (Nat.of_uint_acc _ ?n)) =>
      replace a with (Z.of_nat n) by (rewrite Nat.tail_mul_spec; lia)
  end;
  apply IH; by right.

(** Reading a numeral digit by digit gives the number it writes. *)
Lemma int_digits_uint (u : Decimal.uint) (acc : nat) (prev : bool) :
  u <> Decimal.Nil \/ prev = true ->
  int_digits (Z.of_nat acc) prev (NilEmpty.string_of_uint u)
  = Some (Z.of_nat (Nat.of_uint_acc u acc)).
Proof.
  revert acc prev.
  induction u as [|u IH|u IH|u IH|u IH|u IH|u IH|u IH|u IH|u IH|u IH];
    intros acc prev Hp; [|next_digit IH..].
  destruct Hp as [Hp| ->]; [done|]. reflexivity.
Qed.

Lemma to_uint_not_nil n : Nat.to_uint n <> Decimal.Nil.
Proof.
  intros H. pose proof (Unsigned.of_to n) as Hn. rewrite H in Hn. cbn in Hn. subst n.
  discriminate H.
Qed.


Lemma int_of_str_digits s :
  PyStr.all_chars PyStr.is_digit s = true ->
  PyStr.int_of_str s = PyStr.int_digits 0 false s.
Proof.
  intros Hd. unfold PyStr.int_of_str. rewrite (digits_not_stripped _ Hd).
  destruct s as [|c s]; [done|]. cbn in Hd. apply andb_true_iff in Hd as [Hc _].
  apply is_digit_cases in Hc. unfold digits in Hc.
  repeat (apply elem_of_cons in Hc as [->|Hc]); [..|by apply elem_of_nil in Hc];
    reflexivity.
Qed.

(** X18: the job reads back the ERROR_COUNT the stage passes: [int] of [str]
    of a count is the count, it does not raise. *)
Theorem error_count_read_back (total_invalid : nat) :
  error_count (str_of_count total_invalid) = Ret (Z.of_nat total_invalid).
Proof.
  unfold error_count, str_of_count.
  pose proof (to_uint_not_nil total_invalid) as Hnil.
  pose proof (Unsigned.of_to total_invalid) as Hback. unfold Nat.of_uint in Hback.
  pose proof (int_digits_uint (Nat.to_uint total_invalid) 0 false (or_introl Hnil)) as Hread.
  rewrite Hback in Hread. change (Z.of_nat 0) with 0%Z in Hread.
  replace (NilZero.string_of_uint (Nat.to_uint total_invalid))
    with (NilEmpty.string_of_uint (Nat.to_uint total_invalid))
    by (by destruct (Nat.to_uint total_invalid)).
  by rewrite (int_of_str_digits _ (uint_digits _)), Hread.
Qed.

End Numerals.

(** ** Requests and rows of the enrichment *)

Lemma zip_fst_take {A B} (l : list A) (k : list B) :
  map fst (zip l k) = take (length k) l.
Proof.
  revert k. induction l as [|x l IH]; intros [|y k]; cbn; try done. by rewrite IH.
Qed.

Section Requests.

Variable invoke_model : string -> py string.

(** One partition: the request and the pairs, or the exception of the
    request. *)
Lemma batch_sentiment_cases (partition : list row) :
  match batch_sentiment invoke_model partition with
  | Ret (sent, pairs) =>
      sent = (if nonempty partition then [prompt_of (map Feedback partition)] else []) /\
      exists n, map fst pairs = map CustomerID (take n partition)
  | Raise e =>
      nonempty partition = true /\
      invoke_model (prompt_of (map Feedback partition)) = Raise e
  end.
Proof.
  unfold batch_sentiment. destruct (nonempty partition) eqn:Hne; cbn [negb].
  - destruct (invoke_model _) as [text|e]; cbn; [|done]. split; [done|].
    exists (length (PyStr.split_nl (PyStr.strip text))). rewrite map_map. cbn.
    rewrite <- (map_map fst CustomerID). f_equal. apply zip_fst_take.
  - split; [done|]. by exists 0%nat.
Qed.

End Requests.

Section Enrichment.

Variable invoke_model : string -> py string.

Lemma take_elem {A} (n : nat) (l : list A) (x : A) : x ∈ take n l -> x ∈ l.
Proof. intros H. rewrite <- (take_drop n l). apply elem_of_app. by left. Qed.

(** X19: the enrichment sends one request for every partition that has rows,
    and none for an empty one; it yields at most one pair per row and only
    pairs for a CustomerID of a row; when it raises, the exception is that of
    the request of one of the partitions. *)
Theorem enrichment_requests (partitions : list (list row)) :
  match mapPartitions invoke_model partitions with
  | Ret (sent, sentiment_df) =>
      sent = map (fun p => prompt_of (map Feedback p))
                 (filter (fun p => nonempty p = true) partitions) /\
      (length sentiment_df <= length (concat partitions))%nat /\
      (forall c l, (c, l) ∈ sentiment_df ->
                   exists r, r ∈ concat partitions /\ CustomerID r = c)
  | Raise e =>
      exists p,
        p ∈ partitions /\ nonempty p = true /\
        invoke_model (prompt_of (map Feedback p)) = Raise e
  end.
Proof.
  induction partitions as [|p rest IH]; [cbn; split; [done|]; split; [done|];
    intros c l H; by apply elem_of_nil in H|].
  cbn [mapPartitions]. pose proof (batch_sentiment_cases invoke_model p) as Hb.
  destruct (batch_sentiment invoke_model p) as [[s1 p1]|e1] eqn:Hp; cbn [py_bind fst snd]; cycle 1.
  { destruct Hb as [Hne He]. exists p. split; [apply list_elem_of_here|done]. }
  destruct Hb as [-> (n & Hids)].
  destruct (mapPartitions invoke_model rest) as [[s2 p2]|e2] eqn:Hr; cbn [py_bind fst snd]; cycle 1.
  { destruct IH as (q & Hq & Hne & He).
    exists q. split; [by apply list_elem_of_further|done]. }
  destruct IH as (-> & Hlen & Hin). split; [|split].
  - rewrite filter_cons. destruct (nonempty p); [by rewrite decide_True|].
    by rewrite decide_False.
  - cbn [concat]. rewrite !length_app. apply (f_equal length) in Hids.
    rewrite !length_map, length_take in Hids. lia.
  - intros c l [H|H]%elem_of_app.
    + assert (Hc : c ∈ map fst p1)
        by (apply list_elem_of_fmap; exists (c, l); done).
      rewrite Hids in Hc. apply list_elem_of_fmap in Hc as (r & -> & Hr').
      exists r. split; [|done]. cbn [concat]. apply elem_of_app. left. by eapply take_elem.
    + destruct (Hin c l H) as (r & Hr' & Hc). exists r. split; [|done].
      cbn [concat]. apply elem_of_app. by right.
Qed.

End Enrichment.

(** ** Rows of the final dataset *)

Lemma count_by_id {A} (f : A -> string) (c : string) (l : list A) :
  length (filter (fun x => f x = c) l) = length (filter (fun x => x = c) (map f l)).
Proof.
  induction l as [|x l IH]; [done|]. cbn [map]. rewrite !filter_cons.
  destruct (decide (f x = c)); cbn; by rewrite IH.
Qed.

(** A CustomerID with k rows and j pairs has k rows in the join when j is 0
    and k × j rows otherwise. *)
Lemma left_join_count (rows : list row) (sentiment_df : list (string * string))
    (c : string) :
  length (filter (fun rs => CustomerID rs.1 = c) (left_join rows sentiment_df)) =
  (length (filter (fun r => CustomerID r = c) rows) *
   max 1 (length (filter (fun p => p.1 = c) sentiment_df)))%nat.
Proof.
  unfold left_join. induction rows as [|r rows IH]; [done|].
  cbn [flat_map]. rewrite filter_app, length_app, IH, (filter_cons _ r).
  destruct (decide (CustomerID r = c)) as [<-|Hne].
  - set (matches := filter (fun p => p.1 = CustomerID r) sentiment_df).
    assert (Hall : forall l : list (row * option string),
              Forall (fun rs => rs.1 = r) l ->
              filter (fun rs => CustomerID rs.1 = CustomerID r) l = l).
    { induction 1 as [|x l Hx _ IHl]; [done|].
      rewrite filter_cons_True by (by rewrite Hx). by rewrite IHl. }
    rewrite Hall.
    + destruct matches as [|m ms]; cbn [length]; [lia|]. rewrite length_map. cbn. lia.
    + destruct matches as [|m ms]; [by apply Forall_singleton|].
      apply Forall_forall. intros x (p & -> & _)%list_elem_of_fmap. done.
  - assert (Hnone : forall l : list (row * option string),
              Forall (fun rs => rs.1 = r) l ->
              filter (fun rs => CustomerID rs.1 = c) l = []).
    { induction 1 as [|x l Hx _ IHl]; [done|].
      rewrite filter_cons_False by (by rewrite Hx). done. }
    rewrite Hnone; [done|].
    destruct (filter (fun p => p.1 = CustomerID r) sentiment_df) as [|m ms];
      [by apply Forall_singleton|].
    apply Forall_forall. intros x (p & -> & _)%list_elem_of_fmap. done.
Qed.

(** X20: the left join keeps every consolidated row and repeats it for every
    pair of its CustomerID: a CustomerID with k rows and j pairs has k rows in
    the final dataset when j is 0 and k × j rows otherwise.  When every
    response has a line for every row, the enrichment yields one pair per row,
    so that each row of a customer is joined with the pairs of all the rows of
    that customer: a customer with k consolidated rows has k × k rows in the
    final dataset. *)
Theorem final_join_row_count (invoke_model : string -> py string)
    (partitions : list (list row)) (c : string) :
  let rows := concat partitions in
  let k := length (filter (fun r => CustomerID r = c) rows) in
  (forall sentiment_df,
     length (filter (fun rs => CustomerID rs.1 = c) (left_join rows sentiment_df)) =
     (k * max 1 (length (filter (fun p => p.1 = c) sentiment_df)))%nat) /\
  (answered_in_full invoke_model partitions ->
   forall sent sentiment_df,
     mapPartitions invoke_model partitions = Ret (sent, sentiment_df) ->
     length sentiment_df = length rows /\
     length (filter (fun rs => CustomerID rs.1 = c) (left_join rows sentiment_df))
     = (k * k)%nat).
Proof.
  intros rows k. split; [intros sdf; apply left_join_count|].
  intros Hfull sent sentiment_df Hm.
  destruct (mapPartitions_full invoke_model partitions Hfull) as (sent' & sdf' & Hm' & Hfst).
  rewrite Hm in Hm'. injection Hm' as <- <-.
  split; [apply (f_equal length) in Hfst; by rewrite !length_map in Hfst|].
  rewrite left_join_count. fold rows k.
  assert (Hj : length (filter (fun p : string * string => p.1 = c) sentiment_df) = k).
  { unfold k, rows.
    rewrite (count_by_id fst c sentiment_df), (count_by_id CustomerID c (concat partitions)).
    by rewrite Hfst. }
  rewrite Hj. destruct k; lia.
Qed.

(** ** Runs that return *)

(** X21: a run of the job returns iff none of its four service calls fails,
    the loads, joins and aggregates return and every request of the
    enrichment is answered; it has then recorded SUCCESS with the record
    count, replaced the final dataset by the join, whatever it held before,
    sent the requests and committed.  Once the RUNNING item is written, a run
    whose item says SUCCESS has written the final dataset, and a run that
    reaches the commit has recorded SUCCESS. *)
Theorem run_success
    (invoke_model : string -> py string) (outage : call -> option exn)
    (job_id : string) (consolidate : py (nat * list (list row))) (w : job_world) :
  let out := glue_job invoke_model outage job_id consolidate w in
  (snd out = Ret tt <->
   (forall c, outage c = None) /\
   exists valid_records partitions sent sentiment_df,
     consolidate = Ret (valid_records, partitions) /\
     mapPartitions invoke_model partitions = Ret (sent, sentiment_df)) /\
  (forall valid_records partitions sent sentiment_df,
     snd out = Ret tt ->
     consolidate = Ret (valid_records, partitions) ->
     mapPartitions invoke_model partitions = Ret (sent, sentiment_df) ->
     tracker (fst out) !! job_id = Some (RunRecord "SUCCESS" (Some valid_records)) /\
     (forall j, j <> job_id -> tracker (fst out) !! j = tracker w !! j) /\
     golden (fst out) = Some (left_join (concat partitions) sentiment_df) /\
     requests (fst out) = requests w ++ sent /\
     committed (fst out) = true) /\
  (outage PutItem = None ->
   run_status job_id (fst out) = Some "SUCCESS" ->
   exists valid_records partitions sent sentiment_df,
     consolidate = Ret (valid_records, partitions) /\
     mapPartitions invoke_model partitions = Ret (sent, sentiment_df) /\
     tracker (fst out) !! job_id = Some (RunRecord "SUCCESS" (Some valid_records)) /\
     golden (fst out) = Some (left_join (concat partitions) sentiment_df)) /\
  (outage PutItem = None -> committed w = false -> committed (fst out) = true ->
   run_status job_id (fst out) = Some "SUCCESS").
Proof.
  intros out. unfold out, glue_job, job_bind, put_item, enrich, write_golden,
    update_item, commit, calling, run_status.
  destruct (outage PutItem) as [e0|] eqn:H0; cbn.
  { split; [|split; [|split]]; try done.
    split; [done|]. intros [Hall _]. specialize (Hall PutItem). congruence. }
  destruct consolidate as [[n parts]|e1] eqn:Hc; cbn.
  2:{ rewrite lookup_insert_eq. split; [|split; [|split]]; try done.
      - split; [done|]. by intros [_ (? & ? & ? & ? & ? & _)].
      - intros _ ? ?. congruence. }
  destruct (mapPartitions invoke_model parts) as [[sent sdf]|e2] eqn:Hm; cbn.
  2:{ rewrite lookup_insert_eq. split; [|split; [|split]]; try done.
      - split; [done|]. intros [_ (? & ? & ? & ? & [= <- <-] & Hm')]. congruence.
      - intros _ ? ?. congruence. }
  destruct (outage JdbcWrite) as [e3|] eqn:H3; cbn.
  { rewrite lookup_insert_eq. split; [|split; [|split]]; try done.
    - split; [done|]. intros [Hall _]. specialize (Hall JdbcWrite). congruence.
    - intros _ ? ?. congruence. }
  destruct (outage UpdateItem) as [e4|] eqn:H4; cbn.
  { rewrite lookup_insert_eq. split; [|split; [|split]]; try done.
    - split; [done|]. intros [Hall _]. specialize (Hall UpdateItem). congruence.
    - intros _ ? ?. congruence. }
  destruct (outage Commit) as [e5|] eqn:H5; cbn.
  { rewrite lookup_insert_eq. split; [|split; [|split]]; try done.
    - split; [done|]. intros [Hall _]. specialize (Hall Commit). congruence.
    - intros _ _. exists n, parts, sent, sdf. done. }
  rewrite lookup_insert_eq. split; [|split; [|split]].
  - split; [intros _|done]. split; [by intros []|]. by exists n, parts, sent, sdf.
  - intros n' parts' sent' sdf' _ [= <- <-]. rewrite Hm. intros [= <- <-].
    split; [done|]. split; [|done]. intros j Hj. by rewrite !lookup_insert_ne.
  - intros _ _. by exists n, parts, sent, sdf.
  - done.
Qed.

